(** * Uber fare analysis: a shallow embedding of [complete_analysis.py]

    The script is a linear batch pipeline: load, clean, derive columns,
    aggregate, render ten charts, write a report.  The embedding follows
    the script top to bottom.  A data frame is a list of rows; a column of
    floats holds binary64 values (the IEEE operations of the Standard
    Library's [SpecFloat], with NaN as the missing value, as pandas has
    it); object and integer columns hold [option] cells.  File output is a
    log of paths threaded through a small state-and-exception monad.

    The pandas routines whose workings are not part of the script are
    taken through the interface [Pandas]: the timestamp parser on a
    column, the mean, the quantile, and what [idxmax] does on a series
    without values, in which pandas 2 and pandas 3 differ. *)

From Stdlib Require Import ZArith List String Ascii Bool Lia QArith Qround Permutation Sorted.
From Stdlib Require Import Floats.SpecFloat.
Import ListNotations.
Local Open Scope string_scope.
Local Open Scope Z_scope.

(** ** binary64 *)

Module Float64.

Definition prec : Z := 53.
Definition emax : Z := 1024.

Definition float := spec_float.

Definition add : float -> float -> float := SFadd prec emax.
Definition sub : float -> float -> float := SFsub prec emax.
Definition mul : float -> float -> float := SFmul prec emax.
Definition div : float -> float -> float := SFdiv prec emax.
Definition sqrt : float -> float := SFsqrt prec emax.

Definition ltb : float -> float -> bool := SFltb.
Definition leb : float -> float -> bool := SFleb.
Definition eqb : float -> float -> bool := SFeqb.

Definition nan : float := S754_nan.
Definition zero : float := S754_zero false.

(** Conversion of an integer, and of [m * 2^e], rounding to nearest even. *)
Definition of_Z (n : Z) : float := binary_normalize prec emax n 0 false.
Definition of_dyadic (m e : Z) : float := binary_normalize prec emax m e false.

Definition isna (x : float) : bool :=
  match x with S754_nan => true | _ => false end.
Definition notna (x : float) : bool := negb (isna x).

Definition is_finite (x : float) : bool :=
  match x with S754_zero _ | S754_finite _ _ _ => true | _ => false end.

(** The values that compare [>= 0]: zeros of either sign, positive finite
    numbers and plus infinity. *)
Definition nonneg (x : float) : bool :=
  match x with
  | S754_zero _ | S754_infinity false | S754_finite false _ _ => true
  | _ => false
  end.

End Float64.

Import Float64.

(** ** Timestamps *)

Record Timestamp := mkTimestamp {
  ts_year : Z; ts_month : Z; ts_day : Z;
  ts_hour : Z; ts_minute : Z; ts_second : Z }.

(** Days since 1970-01-01 in the proleptic Gregorian calendar. *)
Definition days_from_civil (y m d : Z) : Z :=
  let y' := if m <=? 2 then y - 1 else y in
  let era := y' / 400 in
  let yoe := y' - era * 400 in
  let mp := (m + 9) mod 12 in
  let doy := (153 * mp + 2) / 5 + d - 1 in
  let doe := yoe * 365 + yoe / 4 - yoe / 100 + doy in
  era * 146097 + doe - 719468.

(** [.dt.dayofweek]: Monday is 0, Sunday is 6 (1970-01-01 was a Thursday). *)
Definition dayofweek (t : Timestamp) : Z :=
  (days_from_civil (ts_year t) (ts_month t) (ts_day t) + 3) mod 7.

Definition weekday_order : list string :=
  ["Monday"; "Tuesday"; "Wednesday"; "Thursday"; "Friday"; "Saturday"; "Sunday"].

(** [.dt.day_name()] *)
Definition day_name (t : Timestamp) : string :=
  nth (Z.to_nat (dayofweek t)) weekday_order "Sunday".

(** ** The pandas interface *)

(** The library routines the script calls and this development does not
    open.  [pd.to_datetime] works on the whole column: it infers one
    layout from the first cell and reads every cell in it, so whether a
    cell parses depends on the cells before it.  It raises on a cell it
    cannot read ([None] here) and otherwise answers one cell per input
    cell, a missing one (NaT, [None]) where the text stands for no date. *)
Class Pandas := {
  (** [pd.to_datetime] on a column of text *)
  to_datetime : list (option string) -> option (list (option Timestamp));
  to_datetime_length :
    forall col out, to_datetime col = Some out ->
                    List.length out = List.length col;
  (** [Series.mean] *)
  mean : list float -> float;
  (** [Series.quantile(q)] *)
  quantile : list float -> Q -> float;
  (** [Series.idxmax] on a series with no value: pandas 3 raises
      [ValueError], pandas 2 answers NaN under a warning *)
  idxmax_all_na_raises : bool }.

(** ** Exceptions and results *)

(** [ValueError] stands for the class and its subclasses, which the date
    parser raises. *)
Inductive exn :=
| ValueError
| ZeroDivisionError
| KeyError.

Inductive result (A : Type) :=
| Ok (a : A)
| Raise (e : exn).
Arguments Ok {A} a.
Arguments Raise {A} e.

(** ** Rows *)

(** A row of the data frame; [D] is the type of the cells of
    [pickup_datetime] (text as loaded, a timestamp after conversion).
    A float cell is missing when it is NaN, another cell when it is
    [None]. *)
Record Row (D : Type) := mkRow {
  key : option string;
  fare_amount : float;
  pickup_datetime : option D;
  pickup_longitude : float;
  pickup_latitude : float;
  dropoff_longitude : float;
  dropoff_latitude : float;
  passenger_count : option Z }.
Arguments mkRow {D}.
Arguments key {D}.
Arguments fare_amount {D}.
Arguments pickup_datetime {D}.
Arguments pickup_longitude {D}.
Arguments pickup_latitude {D}.
Arguments dropoff_longitude {D}.
Arguments dropoff_latitude {D}.
Arguments passenger_count {D}.

Definition RawRow := Row string.
Definition TripRow := Row Timestamp.

Definition is_some {A} (o : option A) : bool :=
  match o with Some _ => true | None => false end.

(** A row with no missing cell. *)
Definition complete {D} (r : Row D) : bool :=
  is_some (key r) && notna (fare_amount r) && is_some (pickup_datetime r)
  && notna (pickup_longitude r) && notna (pickup_latitude r)
  && notna (dropoff_longitude r) && notna (dropoff_latitude r)
  && is_some (passenger_count r).

(** [df.dropna()] *)
Definition dropna {D} (df : list (Row D)) : list (Row D) := filter complete df.

(** ** Step 3: cleaning *)

Section Cleaning.
Context {pd : Pandas}.

Definition set_datetime {D E} (r : Row D) (t : option E) : Row E :=
  mkRow (key r) (fare_amount r) t (pickup_longitude r) (pickup_latitude r)
        (dropoff_longitude r) (dropoff_latitude r) (passenger_count r).

(** Assignment of a converted column to the frame, row by row. *)
Definition assign_datetime (df : list RawRow) (col : list (option Timestamp))
  : list TripRow :=
  map (fun rt => set_datetime (fst rt) (snd rt)) (combine df col).

(** [df['pickup_datetime'] = pd.to_datetime(df['pickup_datetime'])] *)
Definition convert_datetimes (df : list RawRow) : result (list TripRow) :=
  match to_datetime (map pickup_datetime df) with
  | Some col => Ok (assign_datetime df col)
  | None => Raise ValueError
  end.

(** Comparisons of the integer column with a literal; a missing cell
    compares false. *)
Definition pc_gt {D} (r : Row D) (n : Z) : bool :=
  match passenger_count r with Some c => n <? c | None => false end.
Definition pc_le {D} (r : Row D) (n : Z) : bool :=
  match passenger_count r with Some c => c <=? n | None => false end.

Definition fare_gt {D} (r : Row D) (n : Z) : bool := ltb (of_Z n) (fare_amount r).
Definition fare_lt {D} (r : Row D) (n : Z) : bool := ltb (fare_amount r) (of_Z n).

(** The four range filters, in the order of the script. *)
Definition range_filters {D} (df : list (Row D)) : list (Row D) :=
  let df := filter (fun r => fare_gt r 0) df in
  let df := filter (fun r => fare_lt r 200) df in
  let df := filter (fun r => pc_gt r 0) df in
  let df := filter (fun r => pc_le r 6) df in
  df.

(** The Cleaner: lines 44-56. *)
Definition clean (raw : list RawRow) : result (list TripRow) :=
  let df := dropna raw in
  match convert_datetimes df with
  | Raise e => Raise e
  | Ok df => Ok (range_filters df)
  end.

(** The record invariant of the cleaned set. *)
Definition in_range {D} (r : Row D) : bool :=
  fare_gt r 0 && fare_lt r 200 && pc_gt r 0 && pc_le r 6.

Definition cleaned {D} (r : Row D) : bool := complete r && in_range r.

(** No cell other than the timestamp is missing. *)
Definition present_cells {D} (r : Row D) : bool :=
  is_some (key r) && notna (fare_amount r)
  && notna (pickup_longitude r) && notna (pickup_latitude r)
  && notna (dropoff_longitude r) && notna (dropoff_latitude r)
  && is_some (passenger_count r).

(** The row without its timestamp cell. *)
Definition untimed {D} (r : Row D) : Row unit := set_datetime r None.

End Cleaning.

(** ** Step 4: feature engineering

    A derived column is a function of the row.  The columns read off the
    timestamp are missing on a row whose timestamp is NaT; Python's
    comparisons with NaN are false, so on such a row the [apply] calls
    take their last branch. *)

(** The lambda of line 77. *)
Definition is_peak (x : Z) : string :=
  if ((7 <=? x) && (x <=? 9)) || ((17 <=? x) && (x <=? 19))
  then "Peak" else "Off-Peak".

(** Lines 80-88. *)
Definition time_category (hour : Z) : string :=
  if (5 <=? hour) && (hour <? 12) then "Morning"
  else if (12 <=? hour) && (hour <? 17) then "Afternoon"
  else if (17 <=? hour) && (hour <? 21) then "Evening"
  else "Night".

(** [x**2] on a float column is [x*x]. *)
Definition square (x : float) : float := mul x x.

(** Lines 93-94 on the four coordinates of one row. *)
Definition euclid (plon plat dlon dlat : float) : float :=
  sqrt (add (square (sub dlon plon)) (square (sub dlat plat))).

Module Col.

Definition hour (r : TripRow) : option Z := option_map ts_hour (pickup_datetime r).
Definition month (r : TripRow) : option Z := option_map ts_month (pickup_datetime r).
Definition weekday (r : TripRow) : option string :=
  option_map day_name (pickup_datetime r).

Definition is_peak (r : TripRow) : option string :=
  Some match hour r with Some x => is_peak x | None => "Off-Peak" end.

Definition time_category (r : TripRow) : option string :=
  Some match hour r with Some x => time_category x | None => "Night" end.

Definition distance {D} (r : Row D) : float :=
  euclid (pickup_longitude r) (pickup_latitude r)
         (dropoff_longitude r) (dropoff_latitude r).

Definition fare_amount (df : list TripRow) : list float := map fare_amount df.
Definition passenger_count (df : list TripRow) : list (option Z) :=
  map passenger_count df.

End Col.

(** ** Series and group-by *)

(** A series is a list of (label, value) pairs in index order. *)
Definition Series (K V : Type) := list (K * V).

(** The series with [f] applied to every value. *)
Definition smap {K V W} (f : V -> W) (s : Series K V) : Series K W :=
  map (fun kv => (fst kv, f (snd kv))) s.

Section GroupBy.
Context {K : Type}.
Variable K_dec : forall x y : K, {x = y} + {x <> y}.
Variable K_leb : K -> K -> bool.

Definition K_eqb (x y : K) : bool := if K_dec x y then true else false.

Fixpoint insert_sorted (k : K) (ks : list K) : list K :=
  match ks with
  | [] => [k]
  | k' :: ks' => if K_leb k k' then k :: ks else k' :: insert_sorted k ks'
  end.

Definition sort_keys (ks : list K) : list K := fold_right insert_sorted [] ks.

(** The cells that are not missing. *)
Fixpoint present (cells : list (option K)) : list K :=
  match cells with
  | [] => []
  | Some k :: cells' => k :: present cells'
  | None :: cells' => present cells'
  end.

(** The group labels: the distinct keys, sorted; a missing key forms no
    group. *)
Definition group_keys (cells : list (option K)) : list K :=
  sort_keys (nodup K_dec (present cells)).

Definition has_key {R} (key : R -> option K) (k : K) (r : R) : bool :=
  match key r with Some k' => K_eqb k' k | None => false end.

(** [df.groupby(key)]: each label with its rows, in frame order. *)
Definition groupby {R} (key : R -> option K) (df : list R) : Series K (list R) :=
  map (fun k => (k, filter (has_key key k) df)) (group_keys (map key df)).

(** Reduction of every group. *)
Definition agg {R V} (f : list R -> V) (g : Series K (list R)) : Series K V :=
  smap f g.

(** [.size()] *)
Definition size {R} (g : Series K (list R)) : Series K nat :=
  agg (fun rows => List.length rows) g.

Fixpoint lookup {V} (k : K) (s : Series K V) : option V :=
  match s with
  | [] => None
  | (k', v) :: s' => if K_dec k' k then Some v else lookup k s'
  end.

(** [.reindex(labels)]: the labels in the given order; a label the
    series does not have gets a missing value. *)
Definition reindex {V} (labels : list K) (s : Series K V) : Series K (option V) :=
  map (fun l => (l, lookup l s)) labels.

(** [Series.value_counts] on the present cells, sorted by value. *)
Definition value_counts (cells : list (option K)) : Series K nat :=
  map (fun k => (k, List.length (filter (K_eqb k) (present cells)))) (group_keys cells).

(** [Series.mode()]: the most frequent values, ascending. *)
Definition mode (cells : list (option K)) : list K :=
  let vc := value_counts cells in
  let top := fold_right Nat.max 0%nat (map snd vc) in
  map fst (filter (fun kv => Nat.eqb (snd kv) top) vc).

End GroupBy.

(** Sum of a series of counts, missing entries skipped. *)
Definition total {K} (s : Series K nat) : nat := fold_right Nat.add 0%nat (map snd s).
Definition total_skipna {K} (s : Series K (option nat)) : nat :=
  fold_right (fun kv acc => match snd kv with Some n => (n + acc)%nat | None => acc end)
             0%nat s.

(** ** idxmax *)

Section IdxMax.
Context {K V : Type}.
Variable v_notna : V -> bool.
Variable v_ltb : V -> V -> bool.

(** Scan keeping the first largest value seen; missing values are
    skipped. *)
Fixpoint idxmax_from (best : K * V) (s : Series K V) : K * V :=
  match s with
  | [] => best
  | (k, v) :: s' =>
      if v_notna v && v_ltb (snd best) v then idxmax_from (k, v) s'
      else idxmax_from best s'
  end.

(** The entry of the maximum; [None] when every value is missing. *)
Fixpoint argmax (s : Series K V) : option (K * V) :=
  match s with
  | [] => None
  | (k, v) :: s' => if v_notna v then Some (idxmax_from (k, v) s') else argmax s'
  end.

Definition idxmax (s : Series K V) : option K := option_map fst (argmax s).
Definition smax (s : Series K V) : option V := option_map snd (argmax s).

End IdxMax.

Definition count_ltb (a b : option nat) : bool :=
  match a, b with Some x, Some y => Nat.ltb x y | _, _ => false end.

Definition fillna (x : option float) : float :=
  match x with Some v => v | None => nan end.

(** ** Output effects *)

Inductive event :=
| MakeDirs (path : string)
| Wrote (path : string).

(** A computation that logs its file-system effects and may raise; the
    log survives an exception, as files already written do.  The file
    system is taken to accept every call: an I/O failure ends the script
    at once and is not part of the model.  Of the chart library the one
    failure that depends on the data is part of it, the histogram of a
    column with a value that is not finite. *)
Definition IO (A : Type) : Type := list event -> result A * list event.

Definition ret {A} (a : A) : IO A := fun log => (Ok a, log).
Definition bind {A B} (c : IO A) (k : A -> IO B) : IO B :=
  fun log =>
    match c log with
    | (Ok a, log') => k a log'
    | (Raise e, log') => (Raise e, log')
    end.
Definition lift {A} (r : result A) : IO A := fun log => (r, log).
Definition emit (e : event) : IO unit := fun log => (Ok tt, (log ++ [e])%list).

Notation "x <- c ;; k" := (bind c (fun x => k))
  (at level 61, c at next level, right associativity).
Notation "c ;; k" := (bind c (fun _ => k))
  (at level 61, right associativity).

(** The result monad, for the steps of the report. *)
Definition rbind {A B} (r : result A) (k : A -> result B) : result B :=
  match r with
  | Ok a => k a
  | Raise e => Raise e
  end.

Definition to_csv (path : string) : IO unit := emit (Wrote path).
Definition savefig (path : string) : IO unit := emit (Wrote path).
Definition write_text (path : string) : IO unit := emit (Wrote path).
Definition makedirs (path : string) : IO unit := emit (MakeDirs path).

Definition written (log : list event) : list string :=
  flat_map (fun e => match e with Wrote p => [p] | MakeDirs _ => [] end) log.

Definition is_png (path : string) : bool :=
  let n := String.length path in
  String.eqb (substring (n - 4)%nat 4%nat path) ".png".

(** [Axes.hist]: the bin range is computed from the data, and a value
    that is NaN or infinite raises. *)
Definition hist (xs : list float) : IO unit :=
  if forallb is_finite xs then ret tt else lift (Raise ValueError).

(** Python's [a / b] on two lengths. *)
Definition true_div (a b : nat) : result float :=
  if Nat.eqb b 0 then Raise ZeroDivisionError
  else Ok (div (of_Z (Z.of_nat a)) (of_Z (Z.of_nat b))).

(** ** Steps 5-7: statistics, charts, report *)

(** The values the report interpolates that the claims speak about.  The
    other interpolations (median, deviation, range, correlation, period)
    are float reductions of pandas that cannot raise on a non-empty
    frame and are left out. *)
Record Report := mkReport {
  total_records : nat;
  average_fare : float;
  busiest_day : option string;
  busiest_rides : option (option nat);
  highest_fare_day : option string;
  highest_fare : option float;
  most_common : Z;
  outlier_count : nat;
  outlier_percent : float }.

Section Analysis.
Context {pd : Pandas}.

Definition group_mean (rows : list TripRow) : float := mean (Col.fare_amount rows).

(** ['count'] counts the fares that are not missing. *)
Definition group_count (rows : list TripRow) : nat :=
  List.length (filter notna (Col.fare_amount rows)).

Definition hourly_fare (df : list TripRow) : Series Z float :=
  agg group_mean (groupby Z.eq_dec Z.leb Col.hour df).

Definition hourly_rides (df : list TripRow) : Series Z nat :=
  size (groupby Z.eq_dec Z.leb Col.hour df).

Definition weekday_fare (df : list TripRow) : Series string float :=
  smap fillna
    (reindex string_dec weekday_order
       (agg group_mean (groupby string_dec String.leb Col.weekday df))).

Definition weekday_rides (df : list TripRow) : Series string (option nat) :=
  reindex string_dec weekday_order
    (size (groupby string_dec String.leb Col.weekday df)).

Definition monthly_fare (df : list TripRow) : Series Z float :=
  agg group_mean (groupby Z.eq_dec Z.leb Col.month df).

Definition peak_comparison (df : list TripRow) : Series string (float * nat) :=
  agg (fun rows => (group_mean rows, group_count rows))
      (groupby string_dec String.leb Col.is_peak df).

Definition passenger_stats (df : list TripRow) : Series Z (float * nat) :=
  agg (fun rows => (group_mean rows, group_count rows))
      (groupby Z.eq_dec Z.leb passenger_count df).

(** Lines 114-117. *)
Definition outliers (df : list TripRow) : list TripRow :=
  let Q1 := quantile (Col.fare_amount df) (1 # 4) in
  let Q3 := quantile (Col.fare_amount df) (3 # 4) in
  let IQR := sub Q3 Q1 in
  filter (fun r =>
            ltb (fare_amount r) (sub Q1 (mul (of_dyadic 3 (-1)) IQR))
            || ltb (add Q3 (mul (of_dyadic 3 (-1)) IQR)) (fare_amount r))
         df.

(** [len(outliers)/len(df)*100] *)
Definition outlier_pct (df : list TripRow) : result float :=
  match true_div (List.length (outliers df)) (List.length df) with
  | Raise e => Raise e
  | Ok q => Ok (mul q (of_Z 100))
  end.

(** [df.sample(n=min(5000, len(df)))]: the size of the scatter sample. *)
Definition sample_size (df : list TripRow) : nat := Nat.min 5000 (List.length df).

(** [df['passenger_count'].mode()[0]] *)
Definition most_common_passengers (df : list TripRow) : result Z :=
  match mode Z.eq_dec Z.leb (Col.passenger_count df) with
  | m :: _ => Ok m
  | [] => Raise KeyError
  end.

(** [s.idxmax()] as the report calls it: the label of the first largest
    value; when every value is missing, an exception or no label,
    depending on the pandas at hand. *)
Definition idxmax_label {K V} (v_notna : V -> bool) (v_ltb : V -> V -> bool)
           (s : Series K V) : result (option K) :=
  match idxmax v_notna v_ltb s with
  | Some k => Ok (Some k)
  | None => if idxmax_all_na_raises then Raise ValueError else Ok None
  end.

(** The f-string of lines 311-351, interpolations in textual order. *)
Definition build_report (df : list TripRow) : result Report :=
  let n := List.length df in
  let avg := mean (Col.fare_amount df) in
  rbind (idxmax_label is_some count_ltb (weekday_rides df)) (fun day1 =>
  let max1 := smax is_some count_ltb (weekday_rides df) in
  rbind (idxmax_label notna ltb (weekday_fare df)) (fun day2 =>
  let max2 := smax notna ltb (weekday_fare df) in
  rbind (most_common_passengers df) (fun m =>
  rbind (outlier_pct df) (fun pct =>
  Ok (mkReport n avg day1 max1 day2 max2 m
               (List.length (outliers df)) pct))))).

(** The whole script on the loaded frame. *)
Definition complete_analysis (raw : list RawRow) : IO Report :=
  df <- lift (clean raw) ;;
  to_csv "Data/cleaned/uber_cleaned.csv" ;;
  to_csv "Data/enhanced/uber_enhanced.csv" ;;
  _pct <- lift (outlier_pct df) ;;
  makedirs "powerbi" ;;
  savefig "powerbi/fare_distribution.png" ;;
  savefig "powerbi/boxPlot.png" ;;
  savefig "powerbi/fare_hour.png" ;;
  savefig "powerbi/rides_hour.png" ;;
  savefig "powerbi/fare_week.png" ;;
  savefig "powerbi/rides_weekday.png" ;;
  savefig "powerbi/fare_monthly.png" ;;
  savefig "powerbi/peak_analysis.png" ;;
  savefig "powerbi/passenger_analysis.png" ;;
  hist (map Col.distance df) ;;
  savefig "powerbi/summary_analysis.png" ;;
  report <- lift (build_report df) ;;
  write_text "Documents/analysis_report.txt" ;;
  ret report.

Definition run (raw : list RawRow) : result Report * list event :=
  complete_analysis raw [].

End Analysis.

(** ** Vocabulary of the statements *)

Definition peak_hours : list Z := [7; 8; 9; 17; 18; 19].

Definition finite_coordinates {D} (r : Row D) : bool :=
  is_finite (pickup_longitude r) && is_finite (pickup_latitude r)
  && is_finite (dropoff_longitude r) && is_finite (dropoff_latitude r).

(** Pickup and dropoff compare equal, coordinate by coordinate. *)
Definition same_place {D} (r : Row D) : bool :=
  eqb (pickup_longitude r) (dropoff_longitude r)
  && eqb (pickup_latitude r) (dropoff_latitude r).

(** The row with pickup and dropoff exchanged. *)
Definition reverse_trip {D} (r : Row D) : Row D :=
  mkRow (key r) (fare_amount r) (pickup_datetime r)
        (dropoff_longitude r) (dropoff_latitude r)
        (pickup_longitude r) (pickup_latitude r) (passenger_count r).

Definition sum_nat (l : list nat) : nat := fold_right Nat.add 0%nat l.

(** The rows whose key is not missing. *)
Definition keyed {K R} (key : R -> option K) (df : list R) : list R :=
  filter (fun r => is_some (key r)) df.

(** The rides of one weekday. *)
Definition rides_on (d : string) (df : list TripRow) : list TripRow :=
  filter (has_key string_dec Col.weekday d) df.

Definition count_leb (a b : option nat) : bool :=
  match a, b with Some x, Some y => Nat.leb x y | _, _ => false end.

(** How many rows carry the passenger count [v]. *)
Definition frequency (v : Z) (df : list TripRow) : nat :=
  List.length (filter (has_key Z.eq_dec passenger_count v) df).

(** How often the value [k] occurs among the cells, and the largest such
    number. *)
Definition occurrences (cells : list (option Z)) (k : Z) : nat :=
  List.length (filter (K_eqb Z.eq_dec k) (present cells)).

Definition top_count (cells : list (option Z)) : nat :=
  fold_right Nat.max 0%nat
             (map (occurrences cells) (group_keys Z.eq_dec Z.leb cells)).

(** The ten charts, in rendering order, and everything a completed run
    writes. *)
Definition chart_files : list string :=
  [ "powerbi/fare_distribution.png"; "powerbi/boxPlot.png";
    "powerbi/fare_hour.png"; "powerbi/rides_hour.png";
    "powerbi/fare_week.png"; "powerbi/rides_weekday.png";
    "powerbi/fare_monthly.png"; "powerbi/peak_analysis.png";
    "powerbi/passenger_analysis.png"; "powerbi/summary_analysis.png" ].

Definition delimited_files : list string :=
  [ "Data/cleaned/uber_cleaned.csv"; "Data/enhanced/uber_enhanced.csv" ].

Definition report_file : string := "Documents/analysis_report.txt".

Definition complete_log : list event :=
  (map Wrote delimited_files ++ [MakeDirs "powerbi"] ++ map Wrote chart_files
   ++ [Wrote report_file])%list.

(** The log of a run that stops after [n] charts. *)
Definition charts_log (n : nat) : list event :=
  (map Wrote delimited_files ++ [MakeDirs "powerbi"]
   ++ map Wrote (firstn n chart_files))%list.

(** [x] is not NaN and carries the sign [s]. *)
Definition signed (s : bool) (x : float) : Prop :=
  match x with
  | S754_zero s' | S754_infinity s' | S754_finite s' _ _ => s' = s
  | S754_nan => False
  end.

(** ** Further parts of the script *)

(** A list of boolean masks applied one after the other, as lines 53-56
    apply four. *)
Definition apply_filters {A} (ps : list (A -> bool)) (l : list A) : list A :=
  fold_left (fun l p => filter p l) ps l.

Section Console.
Context {pd : Pandas}.

(** Lines 52 and 58: [initial_count - len(df)], the number of records the
    range filters remove. *)
Definition removed_records (raw : list RawRow) : result nat :=
  match convert_datetimes (dropna raw) with
  | Raise e => Raise e
  | Ok df =>
      let initial_count := List.length df in
      Ok (initial_count - List.length (range_filters df))%nat
  end.

End Console.




(** [Series.min()] and [Series.max()] of a float column: missing values
    are skipped, an empty column gives NaN. *)
Definition pick_min (m y : float) : float := if ltb y m then y else m.
Definition pick_max (m y : float) : float := if ltb m y then y else m.

Definition series_min (xs : list float) : float :=
  match filter notna xs with
  | [] => nan
  | x :: rest => fold_left pick_min rest x
  end.

Definition series_max (xs : list float) : float :=
  match filter notna xs with
  | [] => nan
  | x :: rest => fold_left pick_max rest x
  end.

(** Lines 110-111 and 324: the fare range. *)
Definition fare_min (df : list TripRow) : float := series_min (Col.fare_amount df).
Definition fare_max (df : list TripRow) : float := series_max (Col.fare_amount df).

(** Line 335: [df['passenger_count'].max()]. *)
Definition max_passengers (df : list TripRow) : option Z :=
  match present (Col.passenger_count df) with
  | [] => None
  | c :: rest => Some (fold_left Z.max rest c)
  end.

(** ** A reference implementation of the interface

    Enough of pandas to run the script on small frames.  Timestamps are
    read in the two layouts of the data set, [YYYY-MM-DD HH:MM:SS] with
    the zone name UTC after it or without; the layout is taken from the
    first cell that stands for a date, a cell in another layout or with
    an impossible date raises, and the text NaT gives a missing
    timestamp.  The mean is a left-to-right sum over the count and a
    quantile interpolates linearly between order statistics: both agree
    with pandas up to the rounding of the last bit, and exactly on the
    frames below, whose sums and quotients are exact. *)

Module Reference.

Definition digit (c : ascii) : option Z :=
  let n := Z.of_nat (nat_of_ascii c) - 48 in
  if (0 <=? n) && (n <=? 9) then Some n else None.

Fixpoint number (s : string) (acc : Z) : option Z :=
  match s with
  | EmptyString => Some acc
  | String c s' =>
      match digit c with
      | Some d => number s' (10 * acc + d)
      | None => None
      end
  end.

Definition field (start len : nat) (s : string) : option Z :=
  let text := substring start len s in
  if Nat.eqb (String.length text) len then number text 0 else None.

Definition separators (s : string) : bool :=
  String.eqb (substring 4 1 s) "-" && String.eqb (substring 7 1 s) "-"
  && String.eqb (substring 10 1 s) " " && String.eqb (substring 13 1 s) ":"
  && String.eqb (substring 16 1 s) ":".

Definition is_leap (y : Z) : bool :=
  (y mod 4 =? 0) && (negb (y mod 100 =? 0) || (y mod 400 =? 0)).

Definition days_in_month (y m : Z) : Z :=
  if m =? 2 then (if is_leap y then 29 else 28)
  else if (m =? 4) || (m =? 6) || (m =? 9) || (m =? 11) then 30
  else 31.

(** The date and time in the first nineteen characters of a cell. *)
Definition parse_datetime (s : string) : option Timestamp :=
  if separators s then
    match field 0 4 s, field 5 2 s, field 8 2 s,
          field 11 2 s, field 14 2 s, field 17 2 s with
    | Some y, Some m, Some d, Some hh, Some mm, Some ss =>
        if (1 <=? m) && (m <=? 12) && (1 <=? d) && (d <=? days_in_month y m)
           && (hh <=? 23) && (mm <=? 59) && (ss <=? 59)
        then Some (mkTimestamp y m d hh mm ss) else None
    | _, _, _, _, _, _ => None
    end
  else None.

(** The texts that stand for a missing date. *)
Definition nat_strings : list string := ["NaT"; "nat"; "NAT"; "nan"; "NaN"; "NAN"].

Definition is_nat (s : string) : bool := existsb (String.eqb s) nat_strings.

Inductive layout := Naive | Zoned.

Definition layout_eqb (a b : layout) : bool :=
  match a, b with
  | Naive, Naive | Zoned, Zoned => true
  | _, _ => false
  end.

(** What follows the date and time tells the layout. *)
Definition guess_layout (s : string) : option layout :=
  let rest := substring 19 (String.length s - 19) s in
  if String.eqb rest EmptyString then Some Naive
  else if String.eqb rest " UTC" then Some Zoned
  else None.

(** One cell read in the layout of the column; the outer [None] is a
    cell that cannot be read. *)
Definition read_cell (l : layout) (cell : option string)
  : option (option Timestamp) :=
  match cell with
  | None => Some None
  | Some s =>
      if is_nat s then Some None
      else
        match guess_layout s with
        | Some l' =>
            if layout_eqb l l' then option_map Some (parse_datetime s) else None
        | None => None
        end
  end.

Fixpoint read_cells (l : layout) (col : list (option string))
  : option (list (option Timestamp)) :=
  match col with
  | [] => Some []
  | c :: col' =>
      match read_cell l c, read_cells l col' with
      | Some t, Some ts => Some (t :: ts)
      | _, _ => None
      end
  end.

(** The first cell that stands for a date. *)
Fixpoint first_dated (col : list (option string)) : option string :=
  match col with
  | [] => None
  | Some s :: col' => if is_nat s then first_dated col' else Some s
  | None :: col' => first_dated col'
  end.

Definition to_datetime (col : list (option string))
  : option (list (option Timestamp)) :=
  match first_dated col with
  | None => Some (map (fun _ => None) col)
  | Some s =>
      match guess_layout s with
      | Some l => read_cells l col
      | None => None
      end
  end.

Lemma read_cells_length (l : layout) (col : list (option string)) :
  forall out, read_cells l col = Some out -> List.length out = List.length col.
Proof.
  induction col as [| c col IH]; simpl; intros out E.
  - injection E as <-. reflexivity.
  - destruct (read_cell l c); [| discriminate].
    destruct (read_cells l col) as [ts |]; [| discriminate].
    injection E as <-. simpl. f_equal. now apply IH.
Qed.

Lemma to_datetime_length (col : list (option string))
      (out : list (option Timestamp)) :
  to_datetime col = Some out -> List.length out = List.length col.
Proof.
  unfold to_datetime. destruct (first_dated col) as [s |].
  - destruct (guess_layout s) as [l |]; [| discriminate].
    apply read_cells_length.
  - intro E. injection E as <-. apply length_map.
Qed.

Definition fsum (xs : list float) : float := fold_left add xs zero.

Definition mean (xs : list float) : float :=
  let xs := filter notna xs in
  div (fsum xs) (of_Z (Z.of_nat (List.length xs))).

Definition of_Q (q : Q) : float := div (of_Z (Qnum q)) (of_Z (Zpos (Qden q))).

Definition quantile (xs : list float) (q : Q) : float :=
  let xs := sort_keys leb (filter notna xs) in
  match xs with
  | [] => nan
  | _ =>
      let h := Qmult (inject_Z (Z.of_nat (List.length xs) - 1)) q in
      let lo := Qfloor h in
      let frac := of_Q (Qminus h (inject_Z lo)) in
      let a := nth (Z.to_nat lo) xs nan in
      let b := nth (Z.to_nat (lo + 1)) xs a in
      add a (mul (sub b a) frac)
  end.

#[export] Instance pandas : Pandas :=
  Build_Pandas to_datetime to_datetime_length mean quantile true.

(** The same routines with the [idxmax] of pandas 2. *)
Definition pandas2 : Pandas :=
  Build_Pandas to_datetime to_datetime_length mean quantile false.

(** Sample rows: three valid rides and one with a negative fare. *)
Definition trip (k : string) (fare : Z) (stamp : string) (pc : Z) : RawRow :=
  mkRow (Some k) (of_Z fare) (Some stamp)
        (of_dyadic (-2367) (-5)) (of_dyadic 1303 (-5))
        (of_dyadic (-2366) (-5)) (of_dyadic 1305 (-5)) (Some pc).

Definition sample : list RawRow :=
  [ trip "a" 10 "2015-05-07 19:52:06 UTC" 1;
    trip "b" 20 "2015-05-08 08:15:00 UTC" 2;
    trip "c" (-5) "2015-05-09 12:00:00 UTC" 1;
    trip "d" 30 "2015-05-11 23:05:41 UTC" 1 ].

(** A trip from (0, 0) to (2^-600, 0), and one between two points at
    infinite longitude. *)
Definition tiny_trip : RawRow :=
  mkRow (Some "t") (of_Z 10) (Some "2015-05-07 19:52:06 UTC")
        zero zero (of_dyadic 1 (-600)) zero (Some 1).

Definition infinite_trip : RawRow :=
  mkRow (Some "i") (of_Z 10) (Some "2015-05-07 19:52:06 UTC")
        (S754_infinity false) zero (S754_infinity false) zero (Some 1).

Definition round_trip : RawRow :=
  mkRow (Some "r") (of_Z 10) (Some "2015-05-07 19:52:06 UTC")
        (of_dyadic (-2367) (-5)) (of_dyadic 1303 (-5))
        (of_dyadic (-2367) (-5)) (of_dyadic 1303 (-5)) (Some 1).

(** The first sample row as the Cleaner returns it: a Thursday evening
    ride, at a peak hour. *)
Definition peak_row : TripRow :=
  set_datetime (trip "a" 10 "2015-05-07 19:52:06 UTC" 1)
               (Some (mkTimestamp 2015 5 7 19 52 6)).

(** The sample after cleaning. *)
Definition sample_clean : list TripRow :=
  match clean (pd := pandas) sample with Ok df => df | Raise _ => [] end.


(** A frame with a row whose timestamp cell holds the text NaT, which
    the loader keeps as text; that row alone; and the first after
    cleaning. *)
Definition missing_time : list RawRow :=
  [ trip "a" 10 "2015-05-07 19:52:06 UTC" 1; trip "n" 15 "NaT" 1 ].

Definition no_time : list RawRow := [ trip "n" 15 "NaT" 1 ].

Definition missing_time_clean : list TripRow :=
  match clean (pd := pandas) missing_time with Ok df => df | Raise _ => [] end.

End Reference.

(** * Properties *)

(** ** Features of the hour *)

Lemma is_peak_cases (x : Z) :
  ((7 <= x <= 9) \/ (17 <= x <= 19)) /\ is_peak x = "Peak"
  \/ ~ ((7 <= x <= 9) \/ (17 <= x <= 19)) /\ is_peak x = "Off-Peak".
Proof.
  unfold is_peak.
  destruct (Z.leb_spec 7 x), (Z.leb_spec x 9),
    (Z.leb_spec 17 x), (Z.leb_spec x 19); simpl;
    solve [left; split; [lia | reflexivity] | right; split; [lia | reflexivity]].
Qed.

Lemma peak_hours_spec (x : Z) :
  In x peak_hours <-> (7 <= x <= 9) \/ (17 <= x <= 19).
Proof. unfold peak_hours. simpl. lia. Qed.

(** C5: the peak flag is "Peak" exactly on the hours 7, 8, 9, 17, 18, 19
    and "Off-Peak" exactly on the other hours, for the lambda and for the
    column it fills; 9 and 19 are peak, 10 and 20 are not. *)
Theorem is_peak_iff :
  (forall x : Z, is_peak x = "Peak" <-> In x peak_hours)
  /\ (forall x : Z, is_peak x = "Off-Peak" <-> ~ In x peak_hours)
  /\ (forall r : TripRow,
        Col.is_peak r = Some "Peak"
        <-> exists x, Col.hour r = Some x /\ In x peak_hours)
  /\ is_peak 9 = "Peak" /\ is_peak 10 = "Off-Peak"
  /\ is_peak 19 = "Peak" /\ is_peak 20 = "Off-Peak".
Proof.
  assert (P : forall x, is_peak x = "Peak" <-> In x peak_hours).
  { intro x. rewrite peak_hours_spec.
    destruct (is_peak_cases x) as [[I E] | [I E]]; rewrite E; split; auto;
      try discriminate; intro J; contradiction. }
  assert (O : forall x, is_peak x = "Off-Peak" <-> ~ In x peak_hours).
  { intro x. rewrite peak_hours_spec.
    destruct (is_peak_cases x) as [[I E] | [I E]]; rewrite E; split; auto;
      try discriminate; intro J; contradiction. }
  repeat split; try reflexivity; try apply P; try apply O.
  - unfold Col.is_peak. destruct (Col.hour r) as [x |].
    + intro E. exists x. split; [reflexivity |]. apply P. congruence.
    + discriminate.
  - intros [x [E I]]. unfold Col.is_peak. rewrite E. f_equal. apply P, I.
Qed.

(** C6: on the hours 0..23 the category is one of the four names, it is
    Morning exactly on [5,12), Afternoon exactly on [12,17), Evening
    exactly on [17,21) and Night exactly on the rest, and the four names
    are pairwise different, so every hour falls in one bucket only. *)
Theorem time_category_partition (hour : Z) (Hh : 0 <= hour < 24) :
  In (time_category hour) ["Morning"; "Afternoon"; "Evening"; "Night"]
  /\ (time_category hour = "Morning" <-> 5 <= hour < 12)
  /\ (time_category hour = "Afternoon" <-> 12 <= hour < 17)
  /\ (time_category hour = "Evening" <-> 17 <= hour < 21)
  /\ (time_category hour = "Night" <-> hour < 5 \/ 21 <= hour)
  /\ NoDup ["Morning"; "Afternoon"; "Evening"; "Night"].
Proof.
  assert (ND : NoDup ["Morning"; "Afternoon"; "Evening"; "Night"]).
  { repeat constructor; simpl; intuition discriminate. }
  unfold time_category.
  destruct (Z.leb_spec 5 hour), (Z.ltb_spec hour 12),
    (Z.leb_spec 12 hour), (Z.ltb_spec hour 17),
    (Z.leb_spec 17 hour), (Z.ltb_spec hour 21); simpl;
    repeat split; intros; auto; try discriminate; try lia.
Qed.

Lemma time_category_partition_witness :
  0 <= 18 < 24 /\ time_category 18 = "Evening".
Proof.
  split; [lia |].
  apply (proj1 (proj2 (proj2 (proj2 (time_category_partition 18 ltac:(lia)))))).
  lia.
Defined.

Lemma peak_hour_category (x : Z) (Hp : is_peak x = "Peak") :
  time_category x = "Morning" /\ 7 <= x <= 9
  \/ time_category x = "Evening" /\ 17 <= x <= 19.
Proof.
  destruct (is_peak_cases x) as [[I _] | [_ E]]; [| congruence].
  unfold time_category.
  destruct (Z.leb_spec 5 x), (Z.ltb_spec x 12),
    (Z.leb_spec 12 x), (Z.ltb_spec x 17),
    (Z.leb_spec 17 x), (Z.ltb_spec x 21); simpl; try lia;
    solve [left; split; [reflexivity | lia] | right; split; [reflexivity | lia]].
Qed.

(** C10: a row whose peak flag is "Peak" has an hour, and its category is
    Morning with the hour in 7..9 or Evening with the hour in 17..19; it
    is never Afternoon or Night. *)
Theorem peak_is_morning_or_evening (r : TripRow)
    (Hp : Col.is_peak r = Some "Peak") :
  (exists x, Col.hour r = Some x
     /\ (Col.time_category r = Some "Morning" /\ 7 <= x <= 9
         \/ Col.time_category r = Some "Evening" /\ 17 <= x <= 19))
  /\ Col.time_category r <> Some "Afternoon"
  /\ Col.time_category r <> Some "Night".
Proof.
  revert Hp. unfold Col.is_peak, Col.time_category.
  destruct (Col.hour r) as [x |]; [| discriminate].
  intro Hp. assert (Hx : is_peak x = "Peak") by congruence.
  destruct (peak_hour_category x Hx) as [[E I] | [E I]]; rewrite E.
  - split; [exists x; auto |]. split; discriminate.
  - split; [exists x; auto |]. split; discriminate.
Qed.

(** ** The Cleaner *)

Section CleanerFacts.
Context {pd : Pandas}.

Lemma filter_filter {A} (p q : A -> bool) (l : list A) :
  filter q (filter p l) = filter (fun x => p x && q x) l.
Proof.
  induction l as [| a l IH]; simpl; [reflexivity |].
  destruct (p a); simpl; [destruct (q a) |]; rewrite IH; reflexivity.
Qed.

Lemma range_filters_filter {D} (df : list (Row D)) :
  range_filters df = filter in_range df.
Proof.
  unfold range_filters. rewrite !filter_filter. apply filter_ext.
  intro r. unfold in_range. now rewrite !andb_assoc.
Qed.

(** The predicates that do not look at the timestamp. *)
Lemma untimed_set_datetime {D E} (r : Row D) (t : option E) :
  untimed (set_datetime r t) = untimed r.
Proof. reflexivity. Qed.

Lemma untimed_in_range {D E} (r : Row D) (r' : Row E) :
  untimed r' = untimed r -> in_range r' = in_range r.
Proof.
  intro U. change (in_range (untimed r') = in_range (untimed r)).
  now rewrite U.
Qed.

Lemma untimed_present_cells {D E} (r : Row D) (r' : Row E) :
  untimed r' = untimed r -> present_cells r' = present_cells r.
Proof.
  intro U. change (present_cells (untimed r') = present_cells (untimed r)).
  now rewrite U.
Qed.

Lemma complete_present_cells {D} (r : Row D) :
  complete r = is_some (pickup_datetime r) && present_cells r.
Proof.
  unfold complete, present_cells.
  destruct (is_some (key r)), (notna (fare_amount r)),
    (is_some (pickup_datetime r)); reflexivity.
Qed.

(** Conversion keeps every row and leaves every cell but the timestamp
    as it is. *)
Lemma assign_datetime_untimed (df : list RawRow) :
  forall col, List.length col = List.length df ->
              map untimed (assign_datetime df col) = map untimed df.
Proof.
  unfold assign_datetime.
  induction df as [| r df IH]; intros [| t col] L; try discriminate L.
  - reflexivity.
  - simpl. f_equal. apply IH. now injection L.
Qed.

Lemma convert_datetimes_untimed (df : list RawRow) (df' : list TripRow) :
  convert_datetimes df = Ok df' -> map untimed df' = map untimed df.
Proof.
  unfold convert_datetimes.
  destruct (to_datetime (map pickup_datetime df)) as [col |] eqn:T;
    [| discriminate].
  intro E. injection E as <-. apply assign_datetime_untimed.
  rewrite (to_datetime_length _ _ T). apply length_map.
Qed.

Lemma convert_datetimes_length (l : list RawRow) (l' : list TripRow) :
  convert_datetimes l = Ok l' -> List.length l' = List.length l.
Proof.
  intro C. apply convert_datetimes_untimed in C.
  apply (f_equal (@List.length _)) in C. now rewrite !length_map in C.
Qed.

(** Two frames that agree outside the timestamp still do after a filter
    that does not look at it. *)
Lemma filter_untimed {D E} (p : Row D -> bool) (p' : Row E -> bool) :
  (forall r r', untimed r' = untimed r -> p' r' = p r) ->
  forall (l : list (Row D)) (l' : list (Row E)),
    map untimed l' = map untimed l ->
    map untimed (filter p' l') = map untimed (filter p l).
Proof.
  intros Hp l. induction l as [| r l IH]; intros [| r' l'] U;
    try discriminate U.
  - reflexivity.
  - pose proof (f_equal (hd (untimed r)) U) as Ur.
    pose proof (f_equal (@tl _) U) as Ul. cbn [map hd tl] in Ur, Ul.
    simpl. rewrite (Hp r r' Ur).
    destruct (p r); simpl; [rewrite Ur; f_equal |]; now apply IH.
Qed.

Lemma untimed_Forall {D E} (P : Row unit -> Prop)
      (l : list (Row D)) (l' : list (Row E)) :
  map untimed l' = map untimed l ->
  Forall (fun r => P (untimed r)) l -> Forall (fun r => P (untimed r)) l'.
Proof.
  intros U F. apply Forall_map. rewrite U. now apply Forall_map.
Qed.

Lemma in_range_spec {D} (r : Row D) :
  in_range r = true <->
  ltb (of_Z 0) (fare_amount r) = true /\ ltb (fare_amount r) (of_Z 200) = true
  /\ exists c, passenger_count r = Some c /\ 0 < c <= 6.
Proof.
  unfold in_range, fare_gt, fare_lt, pc_gt, pc_le.
  rewrite !andb_true_iff. destruct (passenger_count r) as [c |].
  - rewrite Z.ltb_lt, Z.leb_le. split.
    + intros [[[A B] C] E]. repeat split; auto. exists c. auto.
    + intros (A & B & c' & E & C). injection E as <-. tauto.
  - split.
    + intros [[_ C] _]. discriminate C.
    + intros (_ & _ & c & E & _). discriminate E.
Qed.

(** What the Cleaner returns is, outside the timestamp, the input rows
    that pass its filters. *)
Lemma clean_untimed (raw : list RawRow) (df : list TripRow) :
  clean raw = Ok df -> map untimed df = map untimed (filter cleaned raw).
Proof.
  unfold clean.
  destruct (convert_datetimes (dropna raw)) as [df1 |] eqn:C; [| discriminate].
  intro E. injection E as <-. rewrite range_filters_filter.
  unfold cleaned. rewrite <- (filter_filter complete in_range raw).
  apply filter_untimed.
  - intros r r'. apply untimed_in_range.
  - apply convert_datetimes_untimed, C.
Qed.

(** No row the Cleaner returns has a missing cell outside the timestamp,
    and each is in range. *)
Lemma clean_present_cells (raw : list RawRow) (df : list TripRow) :
  clean raw = Ok df ->
  Forall (fun r : TripRow => present_cells r = true /\ in_range r = true) df.
Proof.
  intro C. apply clean_untimed in C.
  apply (untimed_Forall
           (fun u => present_cells u = true /\ in_range u = true)
           (filter cleaned raw) df C).
  apply Forall_forall. intros r I. apply filter_In in I. destruct I as [_ I].
  unfold cleaned in I. rewrite complete_present_cells in I.
  apply andb_true_iff in I. destruct I as [I R].
  apply andb_true_iff in I. destruct I as [_ I]. split; assumption.
Qed.

(** C1: when the Cleaner returns, every row it returns has a fare
    strictly between 0 and 200, a passenger count from 1 to 6 and no
    missing cell other than the timestamp; outside the timestamp the rows
    it returns are exactly the input rows with no missing cell and these
    ranges, in input order; the timestamps are the cells [pd.to_datetime]
    gave for the rows [dropna] kept, and such a cell may be missing. *)
Theorem clean_invariant (raw : list RawRow) (df : list TripRow)
    (Hclean : clean raw = Ok df) :
  Forall (fun r =>
            present_cells r = true
            /\ ltb (of_Z 0) (fare_amount r) = true
            /\ ltb (fare_amount r) (of_Z 200) = true
            /\ exists c, passenger_count r = Some c /\ 0 < c <= 6) df
  /\ map untimed df = map untimed (filter cleaned raw)
  /\ exists col,
       to_datetime (map pickup_datetime (dropna raw)) = Some col
       /\ List.length col = List.length (dropna raw)
       /\ df = filter in_range (assign_datetime (dropna raw) col).
Proof.
  pose proof (clean_present_cells raw df Hclean) as F.
  pose proof (clean_untimed raw df Hclean) as U.
  split; [| split; [exact U |]].
  - revert F. apply Forall_impl. intros r [P R]. split; [exact P |].
    apply in_range_spec, R.
  - unfold clean, convert_datetimes in Hclean.
    destruct (to_datetime (map pickup_datetime (dropna raw))) as [col |] eqn:T;
      [| discriminate].
    injection Hclean as <-. exists col. split; [reflexivity |]. split.
    + rewrite (to_datetime_length _ _ T). apply length_map.
    + apply range_filters_filter.
Qed.

End CleanerFacts.

(** ** binary64 arithmetic: signs and magnitudes *)

Module Float64Facts.

Lemma iter_pos_invariant {A} (P : A -> Prop) (f : A -> A) :
  (forall x, P x -> P (f x)) -> forall p x, P x -> P (iter_pos f p x).
Proof.
  intros Hf p. induction p as [p IH | p IH |]; simpl; intros x Hx; auto.
Qed.

Lemma shr_1_nonneg (mrs : shr_record) :
  0 <= shr_m mrs -> 0 <= shr_m (shr_1 mrs).
Proof.
  destruct mrs as [m r s]. destruct m as [| [p | p |] | [p | p |]]; simpl; lia.
Qed.

Lemma shr_record_of_loc_m (m : Z) (l : location) :
  shr_m (shr_record_of_loc m l) = m.
Proof. destruct l as [| []]; reflexivity. Qed.

Lemma shr_fexp_nonneg (m e : Z) (l : location) :
  0 <= m -> 0 <= shr_m (fst (shr_fexp prec emax m e l)).
Proof.
  intro Hm. unfold shr_fexp, shr.
  destruct (fexp prec emax (Zdigits2 m + e) - e) as [| p | p]; simpl;
    try (rewrite shr_record_of_loc_m; exact Hm).
  apply iter_pos_invariant; [apply shr_1_nonneg |].
  rewrite shr_record_of_loc_m. exact Hm.
Qed.

Lemma round_nearest_even_nonneg (m : Z) (l : location) :
  0 <= m -> 0 <= round_nearest_even m l.
Proof.
  intro Hm. destruct l as [| []]; simpl; try destruct (Z.even m); lia.
Qed.

(** Rounding a non-negative mantissa never yields NaN and keeps the
    sign it is given. *)
Lemma binary_round_aux_signed (s : bool) (m e : Z) (l : location) :
  0 <= m -> signed s (binary_round_aux prec emax s m e l).
Proof.
  intro Hm. unfold binary_round_aux.
  pose proof (shr_fexp_nonneg m e l Hm) as H1.
  destruct (shr_fexp prec emax m e l) as [mrs' e'].
  pose proof (shr_fexp_nonneg
                (round_nearest_even (shr_m mrs') (loc_of_shr_record mrs')) e'
                loc_Exact (round_nearest_even_nonneg _ _ H1)) as H2.
  destruct (shr_fexp prec emax _ e' loc_Exact) as [mrs'' e''].
  simpl in H2. destruct (shr_m mrs'') as [| q | q].
  - reflexivity.
  - destruct (e'' <=? emax - prec); reflexivity.
  - lia.
Qed.

(** The sign given to the rounding only ends up in the sign of the
    result. *)
Lemma binary_round_aux_abs (s s' : bool) (m e : Z) (l : location) :
  SFabs (binary_round_aux prec emax s m e l)
  = SFabs (binary_round_aux prec emax s' m e l).
Proof.
  unfold binary_round_aux.
  destruct (shr_fexp prec emax m e l) as [mrs' e'].
  destruct (shr_fexp prec emax _ e' loc_Exact) as [mrs'' e''].
  destruct (shr_m mrs'') as [| q | q]; try reflexivity.
  destruct (e'' <=? emax - prec); reflexivity.
Qed.

Lemma binary_round_signed (s : bool) (m : positive) (e : Z) :
  signed s (binary_round prec emax s m e).
Proof.
  unfold binary_round. destruct (shl_align m e _) as [mz ez].
  apply binary_round_aux_signed. lia.
Qed.

Lemma binary_normalize_notna (m e : Z) (s : bool) :
  notna (binary_normalize prec emax m e s) = true.
Proof.
  destruct m as [| p | p]; simpl; [reflexivity | |].
  - pose proof (binary_round_signed false p e) as S.
    destruct (binary_round prec emax false p e); simpl in *; tauto.
  - pose proof (binary_round_signed true p e) as S.
    destruct (binary_round prec emax true p e); simpl in *; tauto.
Qed.

Lemma binary_normalize_opp_abs (m e : Z) (s : bool) :
  SFabs (binary_normalize prec emax (- m) e s)
  = SFabs (binary_normalize prec emax m e s).
Proof.
  destruct m as [| p | p]; simpl; [reflexivity | |];
    unfold binary_round; destruct (shl_align p e _) as [mz ez];
    apply binary_round_aux_abs.
Qed.

(** [a - b] and [b - a] differ in sign only. *)
Lemma sub_swap_abs (a b : float) : SFabs (sub a b) = SFabs (sub b a).
Proof.
  unfold sub, SFsub.
  destruct a as [sa | sa | | sa ma ea], b as [sb | sb | | sb mb eb];
    try reflexivity;
    try (destruct sa, sb; reflexivity).
  rewrite (Z.min_comm eb ea).
  set (A := cond_Zopp sa _). set (B := cond_Zopp sb _).
  replace (B - A) with (- (A - B)) by lia.
  symmetry. apply binary_normalize_opp_abs.
Qed.

(** A square depends on the magnitude only. *)
Lemma square_abs (x y : float) : SFabs x = SFabs y -> square x = square y.
Proof.
  destruct x as [sx | sx | | sx mx ex], y as [sy | sy | | sy my ey];
    simpl; intro E; try discriminate E; unfold square, mul, SFmul.
  - now rewrite !xorb_nilpotent.
  - now rewrite !xorb_nilpotent.
  - reflexivity.
  - injection E as -> ->. now rewrite !xorb_nilpotent.
Qed.

Lemma sub_finite_notna (a b : float) :
  is_finite a = true -> is_finite b = true -> notna (sub a b) = true.
Proof.
  unfold sub, SFsub.
  destruct a as [sa | sa | | sa ma ea], b as [sb | sb | | sb mb eb];
    simpl; intros Fa Fb; try discriminate; try reflexivity.
  - destruct sa, sb; reflexivity.
  - apply binary_normalize_notna.
Qed.

Lemma square_nonneg (x : float) : notna x = true -> nonneg (square x) = true.
Proof.
  destruct x as [s | s | | s m e]; simpl; intro N; try discriminate N;
    unfold square, mul, SFmul; try rewrite xorb_nilpotent; try reflexivity.
  pose proof (binary_round_aux_signed false (Z.pos (m * m)) (e + e) loc_Exact
                ltac:(lia)) as S.
  destruct (binary_round_aux prec emax false _ _ _) as [s' | s' | | s' m' e'];
    simpl in S; try contradiction; subst; reflexivity.
Qed.

Lemma add_nonneg (x y : float) :
  nonneg x = true -> nonneg y = true -> nonneg (add x y) = true.
Proof.
  unfold add, SFadd.
  destruct x as [sx | [] | | [] mx ex], y as [sy | [] | | [] my ey];
    simpl; intros Nx Ny; try discriminate; try reflexivity.
  - destruct sx, sy; reflexivity.
  - pose proof (binary_round_signed false
                  (fst (shl_align mx ex (Z.min ex ey))
                   + fst (shl_align my ey (Z.min ex ey))) (Z.min ex ey)) as S.
    destruct (binary_round prec emax false _ _) as [s' | s' | | s' m' e'];
      simpl in S; try contradiction; subst; reflexivity.
Qed.

Lemma sqrtrem_nonneg (n : Z) : 0 <= fst (Z.sqrtrem n).
Proof.
  destruct n as [| p | p]; simpl; try lia.
  destruct (Pos.sqrtrem p) as [s [| r |]]; simpl; lia.
Qed.

Lemma sqrt_nonneg (x : float) : nonneg x = true -> nonneg (sqrt x) = true.
Proof.
  unfold sqrt, SFsqrt.
  destruct x as [s | [] | | [] m e]; simpl; intro N; try discriminate;
    try reflexivity.
  unfold SFsqrt_core_binary.
  set (m' := match _ - 2 * _ with Z0 => Z.pos m | Z.pos _ => _ | Z.neg _ => 0 end).
  pose proof (sqrtrem_nonneg m') as Q.
  destruct (Z.sqrtrem m') as [q r]. simpl in Q.
  pose proof (binary_round_aux_signed false q
                (Z.min (fexp prec emax (Z.div2 (Zdigits2 (Z.pos m) + e + 1)))
                       (Z.div2 e))
                (if r =? 0 then loc_Exact
                 else loc_Inexact (if r <=? q then Lt else Gt)) Q) as S.
  destruct (binary_round_aux prec emax false q _ _) as [s' | s' | | s' m'' e'];
    simpl in S; try contradiction; subst; reflexivity.
Qed.

Lemma leb_zero_nonneg (x : float) : leb zero x = nonneg x.
Proof. destruct x as [s | [] | | [] m e]; reflexivity. Qed.

Lemma nonneg_not_ltb_zero (x : float) : nonneg x = true -> ltb x zero = false.
Proof. destruct x as [s | [] | | [] m e]; simpl; intro N; try discriminate; reflexivity. Qed.

End Float64Facts.

(** ** Distance *)

Section Distance.
Import Float64Facts.

Lemma eqb_finite_sub_zero (a b : float) :
  is_finite a = true -> is_finite b = true -> eqb a b = true ->
  exists s, sub b a = S754_zero s.
Proof.
  unfold eqb, SFeqb, sub, SFsub.
  destruct a as [sa | sa | | sa ma ea], b as [sb | sb | | sb mb eb];
    simpl; intros Fa Fb E; try discriminate.
  - destruct sb, sa; eexists; reflexivity.
  - destruct sb; discriminate.
  - destruct sa; discriminate.
  - assert (X : sa = sb /\ ea = eb /\ ma = mb).
    { destruct sa, sb; try discriminate;
        destruct (ea ?= eb) eqn:Ce; try discriminate;
        apply Z.compare_eq in Ce;
        destruct (Pos.compare_cont Eq ma mb) eqn:Cm; try discriminate;
        apply Pos.compare_eq in Cm; auto. }
    destruct X as (-> & -> & ->). rewrite Z.sub_diag. simpl.
    eexists; reflexivity.
Qed.

Lemma square_zero (s : bool) : square (S754_zero s) = zero.
Proof. unfold square, mul, SFmul. now rewrite xorb_nilpotent. Qed.

Lemma euclid_swap (plon plat dlon dlat : float) :
  euclid dlon dlat plon plat = euclid plon plat dlon dlat.
Proof.
  unfold euclid.
  rewrite (square_abs (sub plon dlon) (sub dlon plon)) by apply sub_swap_abs.
  rewrite (square_abs (sub plat dlat) (sub dlat plat)) by apply sub_swap_abs.
  reflexivity.
Qed.

Lemma euclid_nonneg (plon plat dlon dlat : float) :
  is_finite plon = true -> is_finite plat = true ->
  is_finite dlon = true -> is_finite dlat = true ->
  nonneg (euclid plon plat dlon dlat) = true.
Proof.
  intros A B C E. unfold euclid.
  apply sqrt_nonneg, add_nonneg; apply square_nonneg, sub_finite_notna; assumption.
Qed.

(** C7, as the code has it: for every record the distance is the
    binary64 square root of the sum of the squared coordinate
    differences, and exchanging pickup and dropoff leaves it unchanged;
    on finite coordinates it is not NaN and compares >= 0, and it is +0
    when pickup and dropoff are equal. *)
Theorem distance_norm {D} (r : Row D) :
  Col.distance r
  = sqrt (add (square (sub (dropoff_longitude r) (pickup_longitude r)))
              (square (sub (dropoff_latitude r) (pickup_latitude r))))
  /\ Col.distance (reverse_trip r) = Col.distance r
  /\ (finite_coordinates r = true ->
      leb zero (Col.distance r) = true
      /\ ltb (Col.distance r) zero = false
      /\ (same_place r = true -> Col.distance r = zero)).
Proof.
  split; [reflexivity |]. split; [apply euclid_swap |]. intro Hfin.
  unfold finite_coordinates in Hfin. rewrite !andb_true_iff in Hfin.
  destruct Hfin as [[[A B] C] E].
  assert (N : nonneg (Col.distance r) = true) by (apply euclid_nonneg; assumption).
  split; [now rewrite leb_zero_nonneg |].
  split; [now apply nonneg_not_ltb_zero |].
  unfold same_place. rewrite andb_true_iff. intros [X Y].
  destruct (eqb_finite_sub_zero _ _ A C X) as [s1 E1].
  destruct (eqb_finite_sub_zero _ _ B E Y) as [s2 E2].
  unfold Col.distance, euclid. rewrite E1, E2, !square_zero. reflexivity.
Qed.

Lemma distance_norm_witness :
  finite_coordinates Reference.round_trip = true
  /\ Col.distance Reference.round_trip = zero
  /\ Col.distance (reverse_trip Reference.infinite_trip)
     = Col.distance Reference.infinite_trip.
Proof.
  split; [reflexivity |]. split.
  - apply (proj2 (proj2 (distance_norm Reference.round_trip)) eq_refl).
    reflexivity.
  - apply (proj1 (proj2 (distance_norm Reference.infinite_trip))).
Defined.

(** The claim of C7 fails on the code in both directions it gives: a
    trip of 2^-600 degrees has distance 0 although its end points
    differ, and a trip between two points at infinite longitude has a
    NaN distance, neither >= 0 nor 0, although its end points are
    equal. *)
Lemma distance_zero_iff_counterexample :
  ~ (eqb (Col.distance Reference.tiny_trip) zero = true
     <-> same_place Reference.tiny_trip = true)
  /\ ~ (leb zero (Col.distance Reference.infinite_trip) = true)
  /\ ~ (eqb (Col.distance Reference.infinite_trip) zero = true
        <-> same_place Reference.infinite_trip = true).
Proof.
  split; [| split].
  - intros [F _]. specialize (F eq_refl). discriminate F.
  - intro F. discriminate F.
  - intros [_ F]. specialize (F eq_refl). discriminate F.
Qed.

End Distance.

(** ** Group-by: labels and counts *)

Section GroupByFacts.
Context {K : Type}.
Variable K_dec : forall x y : K, {x = y} + {x <> y}.
Variable K_leb : K -> K -> bool.

Lemma K_eqb_eq (x y : K) : K_eqb K_dec x y = true <-> x = y.
Proof. unfold K_eqb. destruct (K_dec x y); split; auto; discriminate. Qed.

Lemma insert_sorted_perm (k : K) (ks : list K) :
  Permutation (insert_sorted K_leb k ks) (k :: ks).
Proof.
  clear K_dec.
  induction ks as [| k' ks IH]; simpl; [reflexivity |].
  destruct (K_leb k k'); [reflexivity |].
  rewrite IH. apply perm_swap.
Qed.

Lemma sort_keys_perm (ks : list K) : Permutation (sort_keys K_leb ks) ks.
Proof.
  induction ks as [| k ks IH]; simpl; [reflexivity |].
  rewrite insert_sorted_perm. now constructor.
Qed.

Lemma present_In (k : K) (cells : list (option K)) :
  In k (present cells) <-> In (Some k) cells.
Proof.
  clear K_dec K_leb.
  induction cells as [| [k' |] cells IH]; simpl; [tauto | |].
  - rewrite IH. split; intros [E | I]; auto; left; congruence.
  - rewrite IH. split; [auto | intros [E | I]; [discriminate | auto]].
Qed.

Lemma group_keys_NoDup (cells : list (option K)) :
  NoDup (group_keys K_dec K_leb cells).
Proof.
  unfold group_keys.
  apply (Permutation_NoDup (l := nodup K_dec (present cells))).
  - symmetry. apply sort_keys_perm.
  - apply NoDup_nodup.
Qed.

Lemma group_keys_In (k : K) (cells : list (option K)) :
  In k (group_keys K_dec K_leb cells) <-> In (Some k) cells.
Proof.
  unfold group_keys. rewrite <- (present_In k cells). split; intro I.
  - apply (nodup_In K_dec). revert I. apply Permutation_in, sort_keys_perm.
  - apply (nodup_In K_dec) in I. revert I.
    apply Permutation_in. symmetry. apply sort_keys_perm.
Qed.

Lemma lookup_tabulate {V} (f : K -> V) (k : K) (ks : list K) :
  lookup K_dec k (map (fun k' => (k', f k')) ks)
  = if in_dec K_dec k ks then Some (f k) else None.
Proof.
  clear K_leb.
  induction ks as [| k' ks IH]; simpl; [reflexivity |].
  destruct (K_dec k' k) as [-> | N]; [reflexivity |].
  rewrite IH. destruct (in_dec K_dec k ks); reflexivity.
Qed.

Lemma sum_nat_add {A} (f g : A -> nat) (l : list A) :
  sum_nat (map (fun x => (f x + g x)%nat) l)
  = (sum_nat (map f l) + sum_nat (map g l))%nat.
Proof. induction l as [| a l IH]; simpl; [reflexivity | rewrite IH; lia]. Qed.

Lemma sum_indicator_absent (k0 : K) (ks : list K) :
  ~ In k0 ks ->
  sum_nat (map (fun k => if K_eqb K_dec k0 k then 1%nat else 0%nat) ks) = 0%nat.
Proof.
  clear K_leb.
  induction ks as [| k ks IH]; simpl; intro N; [reflexivity |].
  unfold K_eqb at 1. destruct (K_dec k0 k) as [-> | _]; [tauto |].
  apply IH. tauto.
Qed.

Lemma sum_indicator_present (k0 : K) (ks : list K) :
  NoDup ks -> In k0 ks ->
  sum_nat (map (fun k => if K_eqb K_dec k0 k then 1%nat else 0%nat) ks) = 1%nat.
Proof.
  clear K_leb.
  induction 1 as [| k ks N ND IH]; simpl; intro I; [contradiction |].
  unfold K_eqb at 1. destruct (K_dec k0 k) as [-> | D].
  - now rewrite sum_indicator_absent.
  - apply IH. destruct I; [congruence | assumption].
Qed.

Section Rows.
Context {R : Type}.
Variable key : R -> option K.

(** Over a duplicate-free list of labels that has every key of the
    frame, the group sizes add up to the number of rows with a key. *)
Lemma group_sizes_sum (ks : list K) (df : list R) :
  NoDup ks ->
  (forall r k, In r df -> key r = Some k -> In k ks) ->
  sum_nat (map (fun k => List.length (filter (has_key K_dec key k) df)) ks)
  = List.length (keyed key df).
Proof.
  clear K_leb.
  intros ND. induction df as [| r df IH]; intro Hin.
  - simpl. clear. induction ks as [| k ks IHks]; simpl; auto.
  - transitivity
      (sum_nat (map (fun k => ((if has_key K_dec key k r then 1 else 0)
                               + List.length (filter (has_key K_dec key k) df))%nat)
                    ks)).
    { f_equal. apply map_ext. intro k. simpl.
      destruct (has_key K_dec key k r); reflexivity. }
    rewrite sum_nat_add, IH by (intros; eapply Hin; eauto; now right).
    unfold keyed. simpl. unfold has_key.
    destruct (key r) as [k0 |] eqn:E; simpl.
    + rewrite sum_indicator_present; auto. eapply Hin; eauto. now left.
    + clear. induction ks; simpl; auto.
Qed.

Lemma groupby_keys (df : list R) :
  map fst (groupby K_dec K_leb key df) = group_keys K_dec K_leb (map key df).
Proof. unfold groupby. rewrite map_map. simpl. apply map_id. Qed.

Lemma size_groupby (df : list R) :
  size (groupby K_dec K_leb key df)
  = map (fun k => (k, List.length (filter (has_key K_dec key k) df)))
        (group_keys K_dec K_leb (map key df)).
Proof. unfold size, agg, smap, groupby. rewrite map_map. reflexivity. Qed.

(** The counts of a group-by add up to the rows that have a key. *)
Lemma total_size_groupby (df : list R) :
  total (size (groupby K_dec K_leb key df)) = List.length (keyed key df).
Proof.
  rewrite size_groupby. unfold total. rewrite map_map. simpl.
  apply group_sizes_sum; [apply group_keys_NoDup |].
  intros r k I E. apply group_keys_In. rewrite <- E. now apply in_map.
Qed.

Lemma agg_groupby {V} (f : list R -> V) (df : list R) :
  agg f (groupby K_dec K_leb key df)
  = map (fun k => (k, f (filter (has_key K_dec key k) df)))
        (group_keys K_dec K_leb (map key df)).
Proof. unfold agg, smap, groupby. rewrite map_map. reflexivity. Qed.

(** The same for a count column that counts every row of its group. *)
Lemma total_agg_count {V} (f : list R -> V * nat) (df : list R) :
  (forall k, snd (f (filter (has_key K_dec key k) df))
             = List.length (filter (has_key K_dec key k) df)) ->
  total (smap snd (agg f (groupby K_dec K_leb key df))) = List.length (keyed key df).
Proof.
  intro Hf. rewrite <- total_size_groupby, size_groupby, agg_groupby.
  unfold total, smap. rewrite !map_map. simpl. f_equal. apply map_ext.
  intro k. apply Hf.
Qed.

Lemma filter_has_key_absent (k : K) (df : list R) :
  ~ In (Some k) (map key df) -> filter (has_key K_dec key k) df = [].
Proof.
  clear K_leb.
  induction df as [| r df IH]; simpl; intro N; [reflexivity |].
  unfold has_key at 1. destruct (key r) as [k' |] eqn:E.
  - unfold K_eqb. destruct (K_dec k' k) as [-> | _]; [tauto |]. apply IH. tauto.
  - apply IH. tauto.
Qed.

(** A label of the re-indexed counts has its group size, or a missing
    value when no row has that key. *)
Lemma lookup_size_groupby (k : K) (df : list R) :
  lookup K_dec k (size (groupby K_dec K_leb key df))
  = if in_dec K_dec k (group_keys K_dec K_leb (map key df))
    then Some (List.length (filter (has_key K_dec key k) df)) else None.
Proof.
  rewrite size_groupby.
  apply (lookup_tabulate (fun k' => List.length (filter (has_key K_dec key k') df))).
Qed.

Lemma total_reindex_size (labels : list K) (df : list R) :
  total_skipna (reindex K_dec labels (size (groupby K_dec K_leb key df)))
  = sum_nat (map (fun k => List.length (filter (has_key K_dec key k) df)) labels).
Proof.
  unfold reindex. induction labels as [| l labels IH]; simpl; [reflexivity |].
  rewrite lookup_size_groupby, <- IH.
  destruct (in_dec K_dec l _) as [I | N]; [reflexivity |].
  rewrite filter_has_key_absent; [reflexivity |].
  intro I. apply N, group_keys_In, I.
Qed.

Lemma filter_has_key_present (k : K) (df : list R) :
  In (Some k) (map key df) -> filter (has_key K_dec key k) df <> [].
Proof.
  clear K_leb.
  intro I. apply in_map_iff in I. destruct I as (r & E & I).
  assert (X : In r (filter (has_key K_dec key k) df)).
  { apply filter_In. split; [exact I |]. unfold has_key. rewrite E.
    now apply K_eqb_eq. }
  intro Z. rewrite Z in X. exact X.
Qed.

(** A label is a group label exactly when some row has it as key. *)
Lemma in_group_keys (k : K) (df : list R) :
  (if in_dec K_dec k (group_keys K_dec K_leb (map key df)) then false else true)
  = Nat.eqb (List.length (filter (has_key K_dec key k) df)) 0.
Proof.
  destruct (in_dec K_dec k _) as [I | N].
  - apply group_keys_In, filter_has_key_present in I.
    destruct (filter (has_key K_dec key k) df); [congruence | reflexivity].
  - rewrite filter_has_key_absent; [reflexivity |].
    intro I. apply N, group_keys_In, I.
Qed.

Lemma lookup_agg_groupby {V} (f : list R -> V) (k : K) (df : list R) :
  lookup K_dec k (agg f (groupby K_dec K_leb key df))
  = if Nat.eqb (List.length (filter (has_key K_dec key k) df)) 0 then None
    else Some (f (filter (has_key K_dec key k) df)).
Proof.
  rewrite agg_groupby.
  rewrite (lookup_tabulate (fun k' => f (filter (has_key K_dec key k') df))).
  rewrite <- in_group_keys. destruct (in_dec K_dec k _); reflexivity.
Qed.

End Rows.

Lemma lookup_smap {V W} (f : V -> W) (k : K) (s : Series K V) :
  lookup K_dec k (smap f s) = option_map f (lookup K_dec k s).
Proof.
  clear K_leb.
  induction s as [| [k' v] s IH]; simpl; [reflexivity |].
  destruct (K_dec k' k); [reflexivity | exact IH].
Qed.

Lemma lookup_reindex {V} (k : K) (labels : list K) (s : Series K V) :
  In k labels -> lookup K_dec k (reindex K_dec labels s) = Some (lookup K_dec k s).
Proof.
  clear K_leb.
  intro I. unfold reindex.
  rewrite (lookup_tabulate (fun l => lookup K_dec l s)).
  destruct (in_dec K_dec k labels); [reflexivity | contradiction].
Qed.

Lemma reindex_labels {V} (labels : list K) (s : Series K V) :
  map fst (reindex K_dec labels s) = labels.
Proof. unfold reindex. rewrite map_map. apply map_id. Qed.

Lemma smap_labels {V W} (f : V -> W) (s : Series K V) :
  map fst (smap f s) = map fst s.
Proof. unfold smap. rewrite map_map. reflexivity. Qed.

End GroupByFacts.

(** ** The aggregates of the script *)

Section AggregateFacts.
Context {pd : Pandas}.

Lemma dayofweek_range (t : Timestamp) : 0 <= dayofweek t < 7.
Proof. unfold dayofweek. apply Z.mod_pos_bound. lia. Qed.

Lemma day_name_In (t : Timestamp) : In (day_name t) weekday_order.
Proof.
  unfold day_name. apply nth_In.
  pose proof (dayofweek_range t). simpl. lia.
Qed.

Lemma weekday_order_NoDup : NoDup weekday_order.
Proof.
  unfold weekday_order.
  repeat (constructor; [simpl; intuition discriminate |]). constructor.
Qed.

Lemma present_cells_spec {D} (r : Row D) :
  present_cells r = true ->
  is_some (passenger_count r) = true /\ notna (fare_amount r) = true.
Proof. unfold present_cells. rewrite !andb_true_iff. tauto. Qed.

Lemma clean_cells (raw : list RawRow) (df : list TripRow) :
  clean raw = Ok df ->
  Forall (fun r : TripRow => is_some (passenger_count r) = true) df
  /\ Forall (fun r : TripRow => notna (fare_amount r) = true) df.
Proof.
  intro C. apply clean_present_cells in C.
  split; revert C; apply Forall_impl; intros r [X _];
    apply (present_cells_spec r X).
Qed.

(** The rows with an hour, a weekday or a month are the rows with a
    timestamp. *)
Lemma keyed_timestamp {K} (f : Timestamp -> K) (df : list TripRow) :
  keyed (fun r => option_map f (pickup_datetime r)) df
  = keyed pickup_datetime df.
Proof.
  unfold keyed. apply filter_ext. intro r.
  now destruct (pickup_datetime r).
Qed.

Lemma keyed_all {K} (key : TripRow -> option K) (df : list TripRow) :
  Forall (fun r => is_some (key r) = true) df -> keyed key df = df.
Proof.
  unfold keyed. induction 1 as [| r df E _ IH]; simpl; [reflexivity |].
  now rewrite E, IH.
Qed.

Lemma Forall_filter {A} (P : A -> Prop) (p : A -> bool) (l : list A) :
  Forall P l -> Forall P (filter p l).
Proof.
  intro F. apply Forall_forall. intros x I. apply filter_In in I.
  rewrite Forall_forall in F. apply F. tauto.
Qed.

Lemma group_count_all (rows : list TripRow) :
  Forall (fun r => notna (fare_amount r) = true) rows ->
  group_count rows = List.length rows.
Proof.
  unfold group_count, Col.fare_amount.
  induction 1 as [| r rows E _ IH]; simpl; [reflexivity |].
  rewrite E. simpl. now rewrite IH.
Qed.

(** C8: on the cleaned set, the count columns per passenger count and
    per peak flag each add up to the number of cleaned rows; the ride
    counts per hour, the ride counts per weekday (the days without rides
    skipped) and the sizes of the month groups each add up to the number
    of cleaned rows that have a timestamp, which is all of them exactly
    when no timestamp is missing. *)
Theorem group_counts_sum (raw : list RawRow) (df : list TripRow)
    (Hclean : clean raw = Ok df) :
  total (smap snd (passenger_stats df)) = List.length df
  /\ total (smap snd (peak_comparison df)) = List.length df
  /\ total (hourly_rides df) = List.length (keyed pickup_datetime df)
  /\ total_skipna (weekday_rides df) = List.length (keyed pickup_datetime df)
  /\ total (size (groupby Z.eq_dec Z.leb Col.month df))
     = List.length (keyed pickup_datetime df)
  /\ (List.length (keyed pickup_datetime df) = List.length df
      <-> Forall (fun r => is_some (pickup_datetime r) = true) df).
Proof.
  destruct (clean_cells raw df Hclean) as [P N].
  assert (G : forall {K} (dec : forall x y : K, {x = y} + {x <> y})
                (key : TripRow -> option K) k,
             group_count (filter (has_key dec key k) df)
             = List.length (filter (has_key dec key k) df)).
  { intros. apply group_count_all, Forall_filter, N. }
  split; [| split; [| split; [| split; [| split]]]].
  - unfold passenger_stats. rewrite total_agg_count.
    + rewrite keyed_all; [reflexivity | exact P].
    + intro k. simpl. apply G.
  - unfold peak_comparison. rewrite total_agg_count.
    + rewrite keyed_all; [reflexivity |]. apply Forall_forall. reflexivity.
    + intro k. simpl. apply G.
  - unfold hourly_rides. rewrite total_size_groupby.
    unfold Col.hour. now rewrite keyed_timestamp.
  - unfold weekday_rides. rewrite total_reindex_size.
    rewrite group_sizes_sum.
    + unfold Col.weekday. now rewrite keyed_timestamp.
    + apply weekday_order_NoDup.
    + intros r k _. unfold Col.weekday.
      destruct (pickup_datetime r) as [t |]; simpl; [| discriminate].
      intro E. injection E as <-. apply day_name_In.
  - rewrite total_size_groupby. unfold Col.month. now rewrite keyed_timestamp.
  - clear. unfold keyed, TripRow. split.
    + intro L. apply Forall_forall. intros r I.
      assert (E : filter (fun r => is_some (pickup_datetime r)) df = df).
      { clear r I. induction df as [| r df IH]; [reflexivity |].
        simpl in *. destruct (is_some (pickup_datetime r)).
        - f_equal. apply IH. simpl in L. lia.
        - pose proof (filter_length_le
                        (fun r => is_some (pickup_datetime r)) df). lia. }
      rewrite <- E in I. apply filter_In in I. tauto.
    + intro F. pose proof (keyed_all pickup_datetime df F) as E.
      unfold keyed, TripRow in E. now rewrite E.
Qed.

(** C4, as the code has it: the weekday aggregates always list the seven
    days from Monday to Sunday; a day with rides carries its ride count
    and the mean fare of its rides; a day without rides is kept, and
    both its count and its mean are the missing value (NaN), not 0. *)
Theorem weekday_aggregate_absent_day (df : list TripRow) :
  map fst (weekday_rides df) = weekday_order
  /\ map fst (weekday_fare df) = weekday_order
  /\ Forall (fun d =>
               lookup string_dec d (weekday_rides df)
               = Some (if Nat.eqb (List.length (rides_on d df)) 0 then None
                       else Some (List.length (rides_on d df)))
               /\ lookup string_dec d (weekday_fare df)
                  = Some (if Nat.eqb (List.length (rides_on d df)) 0 then nan
                          else group_mean (rides_on d df)))
            weekday_order.
Proof.
  split; [apply reindex_labels |].
  split; [unfold weekday_fare; rewrite smap_labels; apply reindex_labels |].
  apply Forall_forall. intros d I. unfold weekday_rides, weekday_fare, rides_on.
  rewrite lookup_smap, !lookup_reindex by exact I. unfold size.
  rewrite !lookup_agg_groupby. simpl.
  destruct (Nat.eqb _ 0); split; reflexivity.
Qed.

Lemma lookup_weekday_rides (df : list TripRow) (d : string) :
  In d weekday_order ->
  lookup string_dec d (weekday_rides df)
  = Some (if Nat.eqb (List.length (rides_on d df)) 0 then None
          else Some (List.length (rides_on d df))).
Proof.
  intro I. unfold weekday_rides, rides_on.
  rewrite lookup_reindex by exact I. unfold size.
  now rewrite lookup_agg_groupby.
Qed.

Lemma lookup_weekday_fare (df : list TripRow) (d : string) :
  In d weekday_order ->
  lookup string_dec d (weekday_fare df)
  = Some (if Nat.eqb (List.length (rides_on d df)) 0 then nan
          else group_mean (rides_on d df)).
Proof.
  intro I. unfold weekday_fare, rides_on.
  rewrite lookup_smap, lookup_reindex by exact I.
  rewrite lookup_agg_groupby. simpl. now destruct (Nat.eqb _ 0).
Qed.

End AggregateFacts.

(** The claim of C4 fails on the code: the cleaned sample has no Sunday
    ride, and the ride count the aggregate reports for Sunday is the
    missing value, not 0. *)
Lemma weekday_zero_count_counterexample :
  clean (pd := Reference.pandas) Reference.sample = Ok Reference.sample_clean
  /\ rides_on "Sunday" Reference.sample_clean = []
  /\ lookup string_dec "Sunday" (weekday_rides Reference.sample_clean) = Some None
  /\ lookup string_dec "Sunday" (weekday_rides Reference.sample_clean)
     <> Some (Some 0%nat).
Proof.
  repeat split; try reflexivity. discriminate.
Qed.

(** ** The order of binary64 values *)

Module Float64Order.

Lemma ltb_leb (a b : float) : ltb a b = true -> leb a b = true.
Proof. unfold ltb, leb, SFltb, SFleb. destruct (SFcompare a b) as [[] |]; auto. Qed.

Lemma compare_antisym (a b : float) :
  SFcompare b a = option_map CompOpp (SFcompare a b).
Proof.
  destruct a as [sa | [] | | [] ma ea], b as [sb | [] | | [] mb eb];
    simpl; try reflexivity;
    rewrite (Z.compare_antisym ea eb); destruct (ea ?= eb); simpl;
    try reflexivity;
    change (Pos.compare_cont Eq mb ma) with (Pos.compare mb ma);
    change (Pos.compare_cont Eq ma mb) with (Pos.compare ma mb);
    rewrite (Pos.compare_antisym ma mb); reflexivity.
Qed.

(** Two values that are not NaN are comparable. *)
Lemma not_ltb_leb (a b : float) :
  notna a = true -> notna b = true -> ltb a b = false -> leb b a = true.
Proof.
  unfold ltb, leb, SFltb, SFleb. rewrite (compare_antisym a b).
  destruct a as [sa | sa | | sa ma ea], b as [sb | sb | | sb mb eb];
    try discriminate; intros _ _;
    destruct (SFcompare _ _) as [[] |] eqn:E; simpl; auto; discriminate E.
Qed.

Lemma leb_refl (a : float) : notna a = true -> leb a a = true.
Proof.
  unfold leb, SFleb.
  destruct a as [sa | [] | | [] ma ea]; simpl; try discriminate; auto;
    rewrite Z.compare_refl;
    change (Pos.compare_cont Eq ma ma) with (Pos.compare ma ma);
    rewrite Pos.compare_refl; reflexivity.
Qed.

Ltac order_cases :=
  repeat match goal with
    | |- context [(?x ?= ?y)%Z] => destruct (Z.compare_spec x y)
    | |- context [Pos.compare_cont Eq ?x ?y] =>
        change (Pos.compare_cont Eq x y) with (Pos.compare x y);
        destruct (Pos.compare_spec x y)
    | H : context [(?x ?= ?y)%Z] |- _ => destruct (Z.compare_spec x y)
    | H : context [Pos.compare_cont Eq ?x ?y] |- _ =>
        change (Pos.compare_cont Eq x y) with (Pos.compare x y) in H;
        destruct (Pos.compare_spec x y)
    end.

Lemma leb_trans (a b c : float) :
  leb a b = true -> leb b c = true -> leb a c = true.
Proof.
  unfold leb, SFleb.
  destruct a as [sa | [] | | [] ma ea], b as [sb | [] | | [] mb eb],
    c as [sc | [] | | [] mc ec];
    simpl; intros X Y; try discriminate; try reflexivity;
    order_cases; simpl in *; try discriminate; try reflexivity;
    subst; lia.
Qed.

End Float64Order.

(** ** idxmax *)

Section IdxMaxFacts.
Context {K V : Type}.
Variable v_notna : V -> bool.
Variables v_ltb v_leb : V -> V -> bool.
Hypothesis lt_le : forall a b, v_ltb a b = true -> v_leb a b = true.
Hypothesis not_lt : forall a b,
    v_notna a = true -> v_notna b = true -> v_ltb a b = false -> v_leb b a = true.
Hypothesis le_refl : forall a, v_notna a = true -> v_leb a a = true.
Hypothesis le_trans : forall a b c,
    v_leb a b = true -> v_leb b c = true -> v_leb a c = true.

Lemma idxmax_from_spec (s : Series K V) :
  forall best : K * V,
    v_notna (snd best) = true ->
    let r := idxmax_from v_notna v_ltb best s in
    (r = best \/ In r s) /\ v_notna (snd r) = true
    /\ v_leb (snd best) (snd r) = true
    /\ forall kv, In kv s -> v_notna (snd kv) = true ->
                  v_leb (snd kv) (snd r) = true.
Proof.
  induction s as [| [k v] s IH]; simpl; intros best Nb.
  - repeat split; auto; try contradiction.
  - destruct (v_notna v) eqn:Nv; simpl;
      [destruct (v_ltb (snd best) v) eqn:L |].
    + destruct (IH (k, v) Nv) as (I & N & B & A). simpl in B.
      repeat split; auto.
      * destruct I as [-> | I]; auto.
      * apply (le_trans _ v); [apply lt_le, L | exact B].
      * intros kv [<- | I'] Nkv; auto.
    + destruct (IH best Nb) as (I & N & B & A).
      repeat split; auto.
      * destruct I as [-> | I]; auto.
      * intros kv [<- | I'] Nkv; auto. simpl in *.
        apply (le_trans _ (snd best)); [apply not_lt; auto | exact B].
    + destruct (IH best Nb) as (I & N & B & A).
      repeat split; auto.
      * destruct I as [-> | I]; auto.
      * intros kv [<- | I'] Nkv; auto. simpl in Nkv. congruence.
Qed.

(** The entry [argmax] returns is an entry of the series, its value is
    not missing, and no value of the series is larger. *)
Lemma argmax_spec (s : Series K V) (r : K * V) :
  argmax v_notna v_ltb s = Some r ->
  In r s /\ v_notna (snd r) = true
  /\ forall kv, In kv s -> v_notna (snd kv) = true ->
                v_leb (snd kv) (snd r) = true.
Proof.
  induction s as [| [k v] s IH]; simpl; [discriminate |].
  destruct (v_notna v) eqn:Nv.
  - intro E. injection E as <-.
    destruct (idxmax_from_spec s (k, v) Nv) as (I & N & B & A).
    repeat split; auto.
    + destruct I as [-> | I]; auto.
    + intros kv [<- | I'] Nkv; auto.
  - intro E. destruct (IH E) as (I & N & A). repeat split; auto.
    intros kv [<- | I'] Nkv; auto. simpl in Nkv. congruence.
Qed.

Lemma argmax_none (s : Series K V) :
  argmax v_notna v_ltb s = None ->
  forall kv, In kv s -> v_notna (snd kv) = false.
Proof.
  induction s as [| [k v] s IH]; simpl; [intros _ kv [] |].
  destruct (v_notna v) eqn:Nv; [discriminate |].
  intros E kv [<- | I]; auto.
Qed.

End IdxMaxFacts.

Lemma In_lookup {K V} (K_dec : forall x y : K, {x = y} + {x <> y})
    (k : K) (v : V) (s : Series K V) :
  NoDup (map fst s) -> In (k, v) s -> lookup K_dec k s = Some v.
Proof.
  induction s as [| [k' v'] s IH]; simpl; intros ND I; [contradiction |].
  inversion ND as [| ? ? N ND']; subst.
  destruct I as [E | I].
  - injection E as -> ->. destruct (K_dec k k); [reflexivity | congruence].
  - destruct (K_dec k' k) as [-> | _]; [| auto].
    exfalso. apply N. change k with (fst (k, v)). now apply in_map.
Qed.

Lemma lookup_In {K V} (K_dec : forall x y : K, {x = y} + {x <> y})
    (k : K) (v : V) (s : Series K V) :
  lookup K_dec k s = Some v -> In (k, v) s.
Proof.
  induction s as [| [k' v'] s IH]; simpl; [discriminate |].
  destruct (K_dec k' k) as [-> | _]; [| auto].
  intro E. injection E as ->. now left.
Qed.

(** ** The mode of the passenger counts *)

Section ModeFacts.

Lemma insert_sorted_sorted (k : Z) (ks : list Z) :
  StronglySorted Z.le ks -> StronglySorted Z.le (insert_sorted Z.leb k ks).
Proof.
  induction 1 as [| k' ks S IH F]; simpl.
  - repeat constructor.
  - destruct (Z.leb_spec k k') as [L | G].
    + constructor; [constructor; assumption |].
      constructor; [exact L |].
      revert F. apply Forall_impl. intros; lia.
    + constructor; [exact IH |].
      apply Forall_forall. intros x Ix.
      apply (Permutation_in _ (insert_sorted_perm Z.leb k ks)) in Ix.
      destruct Ix as [<- | Ix]; [lia |].
      rewrite Forall_forall in F. now apply F.
Qed.

Lemma sort_keys_sorted (ks : list Z) : StronglySorted Z.le (sort_keys Z.leb ks).
Proof.
  induction ks as [| k ks IH]; simpl; [constructor |].
  now apply insert_sorted_sorted.
Qed.

(** The first element a filter keeps of a sorted list is the least one
    it keeps. *)
Lemma filter_head_least (p : Z -> bool) (ks : list Z) :
  StronglySorted Z.le ks ->
  forall m rest, filter p ks = m :: rest ->
                 In m ks /\ p m = true
                 /\ forall w, In w ks -> p w = true -> m <= w.
Proof.
  induction 1 as [| k ks S IH F]; simpl; intros m rest E; [discriminate |].
  destruct (p k) eqn:Pk.
  - injection E as -> _. repeat split; auto.
    intros w [<- | I] _; [lia |]. rewrite Forall_forall in F. now apply F.
  - destruct (IH m rest E) as (I & Pm & L). repeat split; auto.
    intros w [<- | I'] Pw; [congruence | auto].
Qed.

Variable cells : list (option Z).

Lemma filter_tabulate (c : Z -> nat) (t : nat) (ks : list Z) :
  map fst (filter (fun kv => Nat.eqb (snd kv) t) (map (fun k => (k, c k)) ks))
  = filter (fun k => Nat.eqb (c k) t) ks.
Proof.
  induction ks as [| k ks IH]; simpl; [reflexivity |].
  destruct (Nat.eqb (c k) t); simpl; now rewrite IH.
Qed.

Lemma mode_filter :
  mode Z.eq_dec Z.leb cells
  = filter (fun k => Nat.eqb (occurrences cells k) (top_count cells))
           (group_keys Z.eq_dec Z.leb cells).
Proof.
  unfold mode, value_counts, top_count. rewrite map_map. simpl.
  apply (filter_tabulate (occurrences cells)).
Qed.

Lemma max_bound (f : Z -> nat) (ks : list Z) (k : Z) :
  In k ks -> (f k <= fold_right Nat.max 0%nat (map f ks))%nat.
Proof.
  induction ks as [| k' ks IH]; simpl; [contradiction |].
  intros [-> | I]; [lia |]. specialize (IH I). lia.
Qed.

Lemma max_attained (f : Z -> nat) (ks : list Z) :
  ks <> [] -> exists k, In k ks /\ f k = fold_right Nat.max 0%nat (map f ks).
Proof.
  induction ks as [| k ks IH]; [congruence |]. intros _. simpl.
  destruct ks as [| k' ks].
  - exists k. simpl. split; [auto | lia].
  - destruct (IH ltac:(discriminate)) as (m & I & E).
    destruct (Nat.le_gt_cases (f k) (fold_right Nat.max 0%nat (map f (k' :: ks)))).
    + exists m. split; [now right |]. rewrite E. lia.
    + exists k. split; [now left | lia].
Qed.

Lemma occurrences_absent (k : Z) :
  ~ In (Some k) cells -> occurrences cells k = 0%nat.
Proof.
  unfold occurrences. rewrite <- (present_In k cells).
  induction (present cells) as [| k' l IH]; simpl; intro N; [reflexivity |].
  unfold K_eqb at 1. destruct (Z.eq_dec k k') as [-> | _]; [tauto |].
  apply IH. tauto.
Qed.

Lemma occurrences_present (k : Z) :
  In (Some k) cells -> (0 < occurrences cells k)%nat.
Proof.
  unfold occurrences. rewrite <- (present_In k cells).
  induction (present cells) as [| k' l IH]; simpl; intro I; [contradiction |].
  unfold K_eqb at 1. destruct (Z.eq_dec k k') as [-> | D]; simpl; [lia |].
  apply IH. destruct I; [congruence | assumption].
Qed.

(** The head of the mode occurs, occurs at least as often as any value,
    and is the least of the values that occur as often. *)
Lemma mode_head (m : Z) (rest : list Z) :
  mode Z.eq_dec Z.leb cells = m :: rest ->
  (0 < occurrences cells m)%nat
  /\ (forall w, occurrences cells w <= occurrences cells m)%nat
  /\ (forall w, occurrences cells w = occurrences cells m -> m <= w).
Proof.
  rewrite mode_filter. intro E.
  destruct (filter_head_least _ _ (sort_keys_sorted _) m rest E) as (I & T & L).
  apply Nat.eqb_eq in T.
  assert (P : (0 < occurrences cells m)%nat).
  { apply occurrences_present. now apply (group_keys_In Z.eq_dec Z.leb). }
  assert (B : forall w, (occurrences cells w <= occurrences cells m)%nat).
  { intro w. rewrite T. destruct (in_dec Z.eq_dec w (group_keys Z.eq_dec Z.leb cells)) as [Iw | Nw].
    - apply max_bound, Iw.
    - rewrite occurrences_absent; [lia |].
      intro X. apply Nw. now apply group_keys_In. }
  repeat split; auto.
  intros w Ew. apply L.
  - destruct (in_dec Z.eq_dec w (group_keys Z.eq_dec Z.leb cells)) as [Iw | Nw]; auto.
    rewrite occurrences_absent in Ew; [lia |].
    intro X. apply Nw. now apply group_keys_In.
  - apply Nat.eqb_eq. congruence.
Qed.

(** The mode is not empty when some cell is present. *)
Lemma mode_nonempty (k : Z) :
  In (Some k) cells -> mode Z.eq_dec Z.leb cells <> [].
Proof.
  intro I. rewrite mode_filter.
  destruct (max_attained (occurrences cells) (group_keys Z.eq_dec Z.leb cells))
    as (m & Im & Em).
  - intro Z0. apply (group_keys_In Z.eq_dec Z.leb) in I. rewrite Z0 in I. exact I.
  - intro Z0.
    assert (X : In m (filter (fun k => Nat.eqb (occurrences cells k) (top_count cells))
                             (group_keys Z.eq_dec Z.leb cells))).
    { apply filter_In. split; [exact Im |]. apply Nat.eqb_eq. exact Em. }
    rewrite Z0 in X. exact X.
Qed.

End ModeFacts.

(** ** The run *)

Section RunFacts.
Context {pd : Pandas}.

Lemma outlier_pct_nonempty (df : list TripRow) :
  df <> [] ->
  exists q, true_div (List.length (outliers df)) (List.length df) = Ok q
            /\ outlier_pct df = Ok (mul q (of_Z 100)).
Proof.
  intro N. unfold outlier_pct, true_div.
  destruct df as [| r df]; [congruence |]. simpl.
  eexists. split; reflexivity.
Qed.

Lemma outlier_pct_empty : outlier_pct [] = Raise ZeroDivisionError.
Proof. reflexivity. Qed.


(** What a report that was built holds. *)
Lemma idxmax_label_Ok {K V} (v_notna : V -> bool) (v_ltb : V -> V -> bool)
      (s : Series K V) (o : option K) :
  idxmax_label v_notna v_ltb s = Ok o ->
  o = idxmax v_notna v_ltb s /\ (o = None -> idxmax_all_na_raises = false).
Proof.
  unfold idxmax_label. destruct (idxmax v_notna v_ltb s) as [k |].
  - intro E. injection E as <-. split; [reflexivity | discriminate].
  - destruct idxmax_all_na_raises; [discriminate |].
    intro E. injection E as <-. auto.
Qed.

Lemma build_report_Ok (df : list TripRow) (rep : Report) :
  build_report df = Ok rep ->
  idxmax_label is_some count_ltb (weekday_rides df) = Ok (busiest_day rep)
  /\ busiest_rides rep = smax is_some count_ltb (weekday_rides df)
  /\ idxmax_label notna ltb (weekday_fare df) = Ok (highest_fare_day rep)
  /\ highest_fare rep = smax notna ltb (weekday_fare df)
  /\ most_common_passengers df = Ok (most_common rep)
  /\ outlier_pct df = Ok (outlier_percent rep)
  /\ outlier_count rep = List.length (outliers df)
  /\ total_records rep = List.length df
  /\ average_fare rep = mean (Col.fare_amount df).
Proof.
  unfold build_report, rbind.
  destruct (idxmax_label is_some count_ltb (weekday_rides df)) as [d1 |];
    [| discriminate].
  destruct (idxmax_label notna ltb (weekday_fare df)) as [d2 |];
    [| discriminate].
  destruct (most_common_passengers df) as [m |]; [| discriminate].
  destruct (outlier_pct df) as [pct |]; [| discriminate].
  intro E. injection E as <-. cbn. repeat split.
Qed.


(** The ways a run ends: the date parser raises before anything is
    written; the cleaned set is empty and the outlier percentage divides
    by zero after the two delimited files; a distance is not finite and
    the histogram of the tenth chart raises after nine charts; the report
    raises after the ten charts; or the run completes with all its
    files. *)
Lemma run_cases (raw : list RawRow) :
  match clean raw with
  | Raise e => run raw = (Raise e, [])
  | Ok [] => run raw = (Raise ZeroDivisionError, map Wrote delimited_files)
  | Ok df =>
      if forallb is_finite (map Col.distance df) then
        match build_report df with
        | Ok rep => run raw = (Ok rep, complete_log)
        | Raise e => run raw = (Raise e, charts_log 10)
        end
      else run raw = (Raise ValueError, charts_log 9)
  end.
Proof.
  unfold run, complete_analysis, bind, lift, hist.
  destruct (clean raw) as [df | e] eqn:C; [| reflexivity].
  destruct df as [| r df]; [reflexivity |].
  destruct (outlier_pct_nonempty (r :: df) ltac:(discriminate)) as (q & _ & Eq).
  rewrite Eq.
  destruct (forallb is_finite (map Col.distance (r :: df))); cbv iota;
    [| reflexivity].
  cbn -[build_report]. destruct (build_report (r :: df)); reflexivity.
Qed.

End RunFacts.

(** ** Outputs of a run *)

Section OutputFacts.
Context {pd : Pandas}.

Lemma completed_run (raw : list RawRow) (rep : Report) (log : list event) :
  run raw = (Ok rep, log) ->
  exists r df, clean raw = Ok (r :: df) /\ build_report (r :: df) = Ok rep
               /\ log = complete_log
               /\ forallb is_finite (map Col.distance (r :: df)) = true.
Proof.
  intro R. pose proof (run_cases raw) as C.
  destruct (clean raw) as [[| r df] | e].
  - rewrite C in R. discriminate R.
  - destruct (forallb is_finite (map Col.distance (r :: df))) eqn:F;
      cbv iota in C; [| rewrite C in R; discriminate R].
    destruct (build_report (r :: df)) as [rep' | e] eqn:B;
      rewrite C in R; [| discriminate R].
    injection R as <- <-. exists r, df. repeat split; auto.
  - rewrite C in R. discriminate R.
Qed.

(** C3, as the code has it: a run that completes has written the two
    delimited files, then ten image files, all under the chart
    directory, then the report, fourteen distinct paths in all. *)
Theorem completed_run_writes (raw : list RawRow) (rep : Report)
    (log : list event) (Hrun : run raw = (Ok rep, log)) :
  written log = (delimited_files ++ chart_files ++ [report_file])%list
  /\ filter is_png (written log) = chart_files
  /\ List.length chart_files = 10%nat
  /\ List.length delimited_files = 2%nat
  /\ Forall (fun p => String.prefix "powerbi/" p = true) chart_files
  /\ NoDup (written log).
Proof.
  destruct (completed_run raw rep log Hrun) as (r & df & _ & _ & -> & _).
  repeat split; try reflexivity.
  - repeat constructor.
  - cbv [written complete_log delimited_files chart_files report_file
           map flat_map app].
    repeat (constructor; [simpl; intuition discriminate |]). constructor.
Qed.

End OutputFacts.


(** The claim of C3 fails on the code: the run on the sample completes
    and has written ten image files, not eleven. *)
Lemma eleven_charts_counterexample :
  exists rep log,
    run (pd := Reference.pandas) Reference.sample = (Ok rep, log)
    /\ List.length (filter is_png (written log)) = 10%nat
    /\ List.length (filter is_png (written log)) <> 11%nat.
Proof.
  eexists. eexists. split; [vm_compute; reflexivity |].
  split; [reflexivity | discriminate].
Qed.

Lemma completed_run_writes_witness :
  exists rep,
    run (pd := Reference.pandas) Reference.sample = (Ok rep, complete_log)
    /\ filter is_png (written complete_log) = chart_files.
Proof.
  eexists. split; [vm_compute; reflexivity |].
  refine (proj1 (proj2 (completed_run_writes (pd := Reference.pandas)
                          Reference.sample _ complete_log _))).
  vm_compute. reflexivity.
Defined.

(** ** The report's extremes *)

Section ReportFacts.
Context {pd : Pandas}.

Lemma count_lt_le (a b : option nat) : count_ltb a b = true -> count_leb a b = true.
Proof.
  destruct a as [x |], b as [y |]; simpl; try discriminate.
  rewrite Nat.ltb_lt, Nat.leb_le. lia.
Qed.

Lemma count_not_lt (a b : option nat) :
  is_some a = true -> is_some b = true -> count_ltb a b = false ->
  count_leb b a = true.
Proof.
  destruct a as [x |], b as [y |]; simpl; try discriminate.
  rewrite Nat.ltb_ge, Nat.leb_le. auto.
Qed.

Lemma count_le_refl (a : option nat) : is_some a = true -> count_leb a a = true.
Proof. destruct a as [x |]; simpl; [intros _; apply Nat.leb_refl | discriminate]. Qed.

Lemma count_le_trans (a b c : option nat) :
  count_leb a b = true -> count_leb b c = true -> count_leb a c = true.
Proof.
  destruct a as [x |], b as [y |], c as [z |]; simpl; try discriminate.
  rewrite !Nat.leb_le. lia.
Qed.

Lemma rides_on_weekday (d : string) (df : list TripRow) :
  rides_on d df <> [] -> In d weekday_order.
Proof.
  unfold rides_on. destruct (filter _ df) as [| r rs] eqn:E; [congruence |].
  intros _. assert (I : In r (filter (has_key string_dec Col.weekday d) df))
    by (rewrite E; now left).
  apply filter_In in I. destruct I as [_ Hk]. revert Hk.
  unfold has_key, Col.weekday.
  destruct (pickup_datetime r) as [t |]; simpl; [| discriminate].
  intro Hk. apply K_eqb_eq in Hk. subst d. apply day_name_In.
Qed.

Lemma weekday_rides_NoDup (df : list TripRow) : NoDup (map fst (weekday_rides df)).
Proof. unfold weekday_rides. rewrite reindex_labels. apply weekday_order_NoDup. Qed.

Lemma weekday_fare_NoDup (df : list TripRow) : NoDup (map fst (weekday_fare df)).
Proof.
  unfold weekday_fare. rewrite smap_labels, reindex_labels.
  apply weekday_order_NoDup.
Qed.

Lemma weekday_rides_entry (df : list TripRow) (d : string) (v : option nat) :
  In (d, v) (weekday_rides df) ->
  In d weekday_order
  /\ v = if Nat.eqb (List.length (rides_on d df)) 0 then None
         else Some (List.length (rides_on d df)).
Proof.
  intro I. assert (Id : In d weekday_order).
  { rewrite <- (reindex_labels string_dec weekday_order
                  (size (groupby string_dec String.leb Col.weekday df))).
    change d with (fst (d, v)). now apply in_map. }
  split; [exact Id |].
  apply (In_lookup string_dec) in I; [| apply weekday_rides_NoDup].
  rewrite lookup_weekday_rides in I by exact Id. congruence.
Qed.

Lemma weekday_fare_entry (df : list TripRow) (d : string) (v : float) :
  In (d, v) (weekday_fare df) ->
  In d weekday_order
  /\ v = if Nat.eqb (List.length (rides_on d df)) 0 then nan
         else group_mean (rides_on d df).
Proof.
  intro I. assert (Id : In d weekday_order).
  { assert (X : In d (map fst (weekday_fare df)))
      by (change d with (fst (d, v)); now apply in_map).
    unfold weekday_fare in X. now rewrite smap_labels, reindex_labels in X. }
  split; [exact Id |].
  apply (In_lookup string_dec) in I; [| apply weekday_fare_NoDup].
  rewrite lookup_weekday_fare in I by exact Id. congruence.
Qed.

Lemma length_zero_nil {A} (l : list A) : Nat.eqb (List.length l) 0 = true <-> l = [].
Proof. destruct l; simpl; split; congruence. Qed.

(** A ride with a timestamp is a ride of its weekday. *)
Lemma timestamp_rides (df : list TripRow) (r : TripRow) (t : Timestamp) :
  In r df -> pickup_datetime r = Some t -> In r (rides_on (day_name t) df).
Proof.
  intros Ir Et. apply filter_In. split; [exact Ir |].
  unfold has_key, Col.weekday. rewrite Et. simpl. now apply K_eqb_eq.
Qed.

(** The busiest day. *)
Lemma busiest_day_spec (df : list TripRow) :
  match argmax is_some count_ltb (weekday_rides df) with
  | Some (d, v) =>
      v = Some (List.length (rides_on d df))
      /\ In d weekday_order /\ rides_on d df <> []
      /\ forall d', (List.length (rides_on d' df)
                     <= List.length (rides_on d df))%nat
  | None => forall d', rides_on d' df = []
  end.
Proof.
  destruct (argmax is_some count_ltb (weekday_rides df)) as [[d v] |] eqn:A.
  - destruct (argmax_spec is_some count_ltb count_leb count_lt_le count_not_lt
                count_le_refl count_le_trans _ _ A) as (I & N & M).
    destruct (weekday_rides_entry df d v I) as [Id Ev]. simpl in N.
    destruct (Nat.eqb (List.length (rides_on d df)) 0) eqn:Z;
      [subst v; discriminate N |].
    subst v. repeat split; auto.
    + intro E. rewrite E in Z. discriminate Z.
    + intro d'. destruct (Nat.eqb (List.length (rides_on d' df)) 0) eqn:Z'.
      * apply Nat.eqb_eq in Z'. lia.
      * assert (Id' : In d' weekday_order).
        { apply (rides_on_weekday d' df). intro E. rewrite E in Z'. discriminate Z'. }
        pose proof (lookup_weekday_rides df d' Id') as L. rewrite Z' in L.
        apply lookup_In in L. specialize (M _ L eq_refl). simpl in M.
        now apply Nat.leb_le.
  - intro d'. destruct (Nat.eqb (List.length (rides_on d' df)) 0) eqn:Z.
    + now apply length_zero_nil.
    + exfalso. assert (Id' : In d' weekday_order).
      { apply (rides_on_weekday d' df). intro E. rewrite E in Z. discriminate Z. }
      pose proof (lookup_weekday_rides df d' Id') as L. rewrite Z in L.
      apply lookup_In in L.
      pose proof (argmax_none is_some count_ltb _ A _ L) as X. discriminate X.
Qed.

(** No weekday has a count exactly when no row has a timestamp. *)
Lemma idxmax_rides_None (df : list TripRow) :
  idxmax is_some count_ltb (weekday_rides df) = None
  <-> keyed pickup_datetime df = [].
Proof.
  pose proof (busiest_day_spec df) as S. unfold idxmax.
  destruct (argmax is_some count_ltb (weekday_rides df)) as [[d v] |]; simpl.
  - split; [discriminate |]. intro E. exfalso.
    destruct S as (_ & _ & N & _). apply N.
    unfold rides_on. destruct (filter _ df) as [| r rs] eqn:F; [reflexivity |].
    assert (I : In r (filter (has_key string_dec Col.weekday d) df))
      by (rewrite F; now left).
    apply filter_In in I. destruct I as [I Hk].
    assert (X : In r (keyed pickup_datetime df)).
    { apply filter_In. split; [exact I |]. revert Hk.
      unfold has_key, Col.weekday. now destruct (pickup_datetime r). }
    rewrite E in X. destruct X.
  - split; [intros _ | reflexivity].
    destruct (keyed pickup_datetime df) as [| r rs] eqn:F; [reflexivity |].
    exfalso. assert (I : In r (keyed pickup_datetime df))
      by (rewrite F; now left).
    apply filter_In in I. destruct I as [I T].
    destruct (pickup_datetime r) as [t |] eqn:Et; [| discriminate].
    pose proof (timestamp_rides df r t I Et) as X.
    now rewrite (S (day_name t)) in X.
Qed.

(** The day of the highest mean fare. *)
Lemma highest_fare_day_spec (df : list TripRow) :
  match argmax notna ltb (weekday_fare df) with
  | Some (d, v) =>
      In d weekday_order /\ rides_on d df <> []
      /\ v = group_mean (rides_on d df) /\ notna v = true
      /\ forall d', rides_on d' df <> [] ->
                    notna (group_mean (rides_on d' df)) = true ->
                    leb (group_mean (rides_on d' df)) v = true
  | None =>
      forall d', rides_on d' df <> [] ->
                 notna (group_mean (rides_on d' df)) = false
  end.
Proof.
  destruct (argmax notna ltb (weekday_fare df)) as [[d v] |] eqn:A.
  - destruct (argmax_spec notna ltb leb Float64Order.ltb_leb
                Float64Order.not_ltb_leb Float64Order.leb_refl
                Float64Order.leb_trans _ _ A) as (I & N & M).
    destruct (weekday_fare_entry df d v I) as [Id Ev]. simpl in N.
    destruct (Nat.eqb (List.length (rides_on d df)) 0) eqn:Z;
      [subst v; discriminate N |].
    repeat split; auto.
    + intro E. rewrite E in Z. discriminate Z.
    + intros d' Nd' Nm.
      pose proof (lookup_weekday_fare df d' (rides_on_weekday d' df Nd')) as L.
      destruct (Nat.eqb (List.length (rides_on d' df)) 0) eqn:Z'.
      * apply length_zero_nil in Z'. contradiction.
      * apply lookup_In in L. apply (M _ L Nm).
  - intros d' Nd'.
    pose proof (lookup_weekday_fare df d' (rides_on_weekday d' df Nd')) as L.
    destruct (Nat.eqb (List.length (rides_on d' df)) 0) eqn:Z'.
    + apply length_zero_nil in Z'. contradiction.
    + apply lookup_In in L. apply (argmax_none notna ltb _ A _ L).
Qed.

Lemma occurrences_frequency (df : list TripRow) (k : Z) :
  occurrences (Col.passenger_count df) k = frequency k df.
Proof.
  unfold occurrences, frequency, Col.passenger_count.
  induction df as [| r df IH]; simpl; [reflexivity |].
  unfold has_key at 1. destruct (passenger_count r) as [c |]; simpl; [| exact IH].
  unfold K_eqb. destruct (Z.eq_dec k c), (Z.eq_dec c k); simpl;
    solve [f_equal; exact IH | exact IH | congruence].
Qed.



(** C9: in the report of a completed run, the busiest day is the
    [idxmax] of the weekday ride counts: a weekday with rides and with
    the largest ride count, reported with that count; the highest-fare
    day is the [idxmax] of the weekday mean fares: a weekday with rides
    whose mean fare no other weekday's mean exceeds, reported with that
    mean; and the most common passenger count is a value of the largest
    frequency and the lowest such value.  All three are read off the
    weekday aggregates and the passenger column of the cleaned frame.  A
    report names a busiest day whenever [idxmax] raises on a series
    without values or some cleaned row has a timestamp; it can lack one
    only when [idxmax] answers NaN there and no weekday has rides. *)
Theorem report_extremes (raw : list RawRow) (rep : Report) (log : list event)
    (Hrun : run raw = (Ok rep, log)) :
  exists df,
    clean raw = Ok df
    /\ busiest_day rep = idxmax is_some count_ltb (weekday_rides df)
    /\ highest_fare_day rep = idxmax notna ltb (weekday_fare df)
    /\ match busiest_day rep with
       | Some d =>
           busiest_rides rep = Some (Some (List.length (rides_on d df)))
           /\ In d weekday_order /\ rides_on d df <> []
           /\ forall d', (List.length (rides_on d' df)
                          <= List.length (rides_on d df))%nat
       | None =>
           idxmax_all_na_raises = false /\ busiest_rides rep = None
           /\ keyed pickup_datetime df = []
           /\ forall d', rides_on d' df = []
       end
    /\ match highest_fare_day rep with
       | Some d =>
           In d weekday_order /\ rides_on d df <> []
           /\ highest_fare rep = Some (group_mean (rides_on d df))
           /\ notna (group_mean (rides_on d df)) = true
           /\ forall d', rides_on d' df <> [] ->
                         notna (group_mean (rides_on d' df)) = true ->
                         leb (group_mean (rides_on d' df))
                             (group_mean (rides_on d df)) = true
       | None =>
           idxmax_all_na_raises = false /\ highest_fare rep = None
           /\ forall d', rides_on d' df <> [] ->
                         notna (group_mean (rides_on d' df)) = false
       end
    /\ (idxmax_all_na_raises = true \/ keyed pickup_datetime df <> [] ->
        exists d, busiest_day rep = Some d)
    /\ (0 < frequency (most_common rep) df)%nat
    /\ (forall w, frequency w df <= frequency (most_common rep) df)%nat
    /\ (forall w, frequency w df = frequency (most_common rep) df ->
                  most_common rep <= w).
Proof.
  destruct (completed_run raw rep log Hrun) as (r & df0 & C & B & _ & _).
  remember (r :: df0) as df eqn:Edf. clear Edf.
  exists df. split; [exact C |].
  destruct (build_report_Ok df rep B)
    as (L1 & M1 & L2 & M2 & Em & _).
  destruct (idxmax_label_Ok _ _ _ _ L1) as [E1 N1].
  destruct (idxmax_label_Ok _ _ _ _ L2) as [E2 N2].
  split; [exact E1 |]. split; [exact E2 |].
  assert (S1 : match busiest_day rep with
       | Some d =>
           busiest_rides rep = Some (Some (List.length (rides_on d df)))
           /\ In d weekday_order /\ rides_on d df <> []
           /\ forall d', (List.length (rides_on d' df)
                          <= List.length (rides_on d df))%nat
       | None =>
           idxmax_all_na_raises = false /\ busiest_rides rep = None
           /\ keyed pickup_datetime df = []
           /\ forall d', rides_on d' df = []
       end).
  { pose proof (busiest_day_spec df) as S.
    pose proof (idxmax_rides_None df) as R.
    rewrite M1. rewrite E1 in N1 |- *. unfold idxmax, smax in *.
    destruct (argmax is_some count_ltb (weekday_rides df)) as [[d v] |]; simpl in *.
    - destruct S as (-> & Id & Nd & M). auto.
    - repeat split; auto. now apply R. }
  split; [exact S1 |]. split; [| split].
  - pose proof (highest_fare_day_spec df) as S.
    rewrite M2. rewrite E2 in N2 |- *. unfold idxmax, smax in *.
    destruct (argmax notna ltb (weekday_fare df)) as [[d v] |]; simpl in *.
    + destruct S as (Id & Nd & -> & Nv & M). auto.
    + auto.
  - intros [Fl | Nk]; destruct (busiest_day rep) as [d |]; eauto.
    + destruct S1 as (X & _). congruence.
    + destruct S1 as (_ & _ & X & _). contradiction.
  - unfold most_common_passengers in Em.
    destruct (mode Z.eq_dec Z.leb (Col.passenger_count df))
      as [| m' rest] eqn:Mo; [discriminate |].
    injection Em as Em. rewrite <- Em.
    destruct (mode_head _ _ _ Mo) as (P & U & L).
    split; [rewrite <- occurrences_frequency; exact P |]. split.
    + intro w. rewrite <- !occurrences_frequency. apply U.
    + intros w E. apply L. rewrite !occurrences_frequency. exact E.
Qed.

End ReportFacts.

(** ** The sample frame *)

Lemma clean_invariant_witness :
  clean (pd := Reference.pandas) Reference.sample = Ok Reference.sample_clean
  /\ map untimed Reference.sample_clean
     = map untimed (filter cleaned Reference.sample).
Proof.
  split; [reflexivity |].
  apply (proj1 (proj2 (clean_invariant (pd := Reference.pandas) Reference.sample
                         Reference.sample_clean eq_refl))).
Defined.

(** The claim of C1 fails on the code: the text NaT in the timestamp
    cell is no missing value to [dropna], [pd.to_datetime] turns it into
    a missing timestamp without raising, and the row stays in the
    cleaned set, where a field of it is missing. *)
Lemma missing_timestamp_counterexample :
  clean (pd := Reference.pandas) Reference.missing_time
  = Ok Reference.missing_time_clean
  /\ map key Reference.missing_time_clean = [Some "a"; Some "n"]
  /\ map (fun r => is_some (pickup_datetime r)) Reference.missing_time_clean
     = [true; false]
  /\ map complete Reference.missing_time_clean = [true; false].
Proof. repeat split; reflexivity. Qed.


Lemma peak_is_morning_or_evening_witness :
  Col.is_peak Reference.peak_row = Some "Peak"
  /\ Col.time_category Reference.peak_row <> Some "Afternoon".
Proof.
  split; [reflexivity |].
  apply (peak_is_morning_or_evening Reference.peak_row eq_refl).
Defined.

Lemma group_counts_sum_witness :
  clean (pd := Reference.pandas) Reference.sample = Ok Reference.sample_clean
  /\ total (smap snd (passenger_stats (pd := Reference.pandas)
                                      Reference.sample_clean)) = 3%nat.
Proof.
  split; [reflexivity |].
  apply (proj1 (group_counts_sum (pd := Reference.pandas) Reference.sample
                  Reference.sample_clean eq_refl)).
Defined.

(** The claim of C8 fails on the code: of the two cleaned rows of this
    frame one has no timestamp, so it belongs to no hour, weekday or
    month group, and the counts of these groupings add up to 1. *)
Lemma timed_counts_counterexample :
  clean (pd := Reference.pandas) Reference.missing_time
  = Ok Reference.missing_time_clean
  /\ List.length Reference.missing_time_clean = 2%nat
  /\ total (hourly_rides Reference.missing_time_clean) = 1%nat
  /\ total_skipna (weekday_rides Reference.missing_time_clean) = 1%nat
  /\ total (size (groupby Z.eq_dec Z.leb Col.month Reference.missing_time_clean))
     = 1%nat
  /\ total (hourly_rides Reference.missing_time_clean)
     <> List.length Reference.missing_time_clean.
Proof. repeat split; try reflexivity. discriminate. Qed.

Lemma report_extremes_witness :
  exists rep,
    run (pd := Reference.pandas) Reference.sample = (Ok rep, complete_log)
    /\ exists df,
        clean (pd := Reference.pandas) Reference.sample = Ok df
        /\ busiest_day rep = idxmax is_some count_ltb (weekday_rides df).
Proof.
  eexists. split; [vm_compute; reflexivity |].
  match goal with
  | |- exists df, _ /\ busiest_day ?rep = _ =>
      destruct (report_extremes (pd := Reference.pandas) Reference.sample rep
                  complete_log ltac:(vm_compute; reflexivity))
        as (df & C & B & _)
  end.
  exists df. split; assumption.
Defined.

(** ** Frames with a missing timestamp or a distance that is not finite *)

(** The reference parser reads a column in the layout of its first
    cell: a cell without the zone name after one with it raises, though
    it is read when it stands alone; an impossible date raises; the text
    NaT gives a missing timestamp. *)
Example reference_parser_layouts :
  Reference.to_datetime
    [Some "2015-05-07 19:52:06 UTC"; Some "2015-05-08 08:15:00"] = None
  /\ Reference.to_datetime [Some "2015-05-08 08:15:00"]
     = Some [Some (mkTimestamp 2015 5 8 8 15 0)]
  /\ Reference.to_datetime [Some "2015-02-30 08:15:00"] = None
  /\ Reference.to_datetime [Some "NaT"; Some "2015-05-08 08:15:00 UTC"]
     = Some [None; Some (mkTimestamp 2015 5 8 8 15 0)].
Proof. repeat split; reflexivity. Qed.

(** On a frame whose only row has no timestamp the ten charts are
    written and the report is not: [idxmax] raises on the ride counts,
    which are all missing.  Where [idxmax] answers NaN instead, the run
    completes and the report names no busiest day. *)
Example no_timestamp_run :
  run (pd := Reference.pandas) Reference.no_time
  = (Raise ValueError, charts_log 10)
  /\ exists rep,
      run (pd := Reference.pandas2) Reference.no_time = (Ok rep, complete_log)
      /\ busiest_day rep = None /\ busiest_rides rep = None
      /\ total_records rep = 1%nat.
Proof.
  split; [vm_compute; reflexivity |].
  eexists. split; [vm_compute; reflexivity |]. repeat split.
Qed.

(** On a frame with a distance that is not finite the run stops in the
    tenth chart, after nine. *)
Example infinite_distance_run :
  isna (Col.distance Reference.infinite_trip) = true
  /\ run (pd := Reference.pandas) [Reference.infinite_trip]
     = (Raise ValueError, charts_log 9)
  /\ List.length (filter is_png (written (charts_log 9))) = 9%nat.
Proof.
  split; [reflexivity |]. split; [vm_compute; reflexivity | reflexivity].
Qed.

(** * Further properties of the script *)

(** ** The Cleaner: fixed point, filter order, accounting *)

Section CleanerMore.
Context {pd : Pandas}.

Lemma filter_all {A} (p : A -> bool) (l : list A) :
  Forall (fun x => p x = true) l -> filter p l = l.
Proof.
  induction 1 as [| x l E _ IH]; simpl; [reflexivity |]. now rewrite E, IH.
Qed.

Lemma clean_in_range (raw : list RawRow) (df : list TripRow) :
  clean raw = Ok df -> Forall (fun r : TripRow => in_range r = true) df.
Proof.
  unfold clean.
  destruct (convert_datetimes (dropna raw)) as [df1 |]; [| discriminate].
  intro E. injection E as <-. rewrite range_filters_filter.
  apply Forall_forall. intros r I. apply filter_In in I. tauto.
Qed.

Lemma filter_id_iff {A} (p : A -> bool) (l : list A) :
  filter p l = l <-> Forall (fun x => p x = true) l.
Proof.
  split; [| apply filter_all].
  intro E. apply Forall_forall. intros x I. rewrite <- E in I.
  apply filter_In in I. tauto.
Qed.

(** Cleaning what the Cleaner returned: the four range filters remove no
    row of it, and [dropna] removes exactly its rows without a
    timestamp, so the cleaned frame is a fixed point of the Cleaner's
    filters exactly when no timestamp in it is missing. *)
Theorem cleaner_fixed_point (raw : list RawRow) (df : list TripRow)
    (Hclean : clean raw = Ok df) :
  range_filters df = df
  /\ dropna df = keyed pickup_datetime df
  /\ range_filters (dropna df) = keyed pickup_datetime df
  /\ (dropna df = df
      <-> Forall (fun r => is_some (pickup_datetime r) = true) df).
Proof.
  pose proof (clean_present_cells raw df Hclean) as F.
  assert (A : dropna df = keyed pickup_datetime df).
  { unfold dropna, keyed. apply filter_ext_in. intros r I.
    rewrite Forall_forall in F. destruct (F r I) as [P _].
    rewrite complete_present_cells, P. apply andb_true_r. }
  assert (B : range_filters df = df).
  { rewrite range_filters_filter. apply filter_all, (clean_in_range raw df Hclean). }
  split; [exact B |]. split; [exact A |]. split.
  - rewrite A, range_filters_filter. apply filter_all.
    apply Forall_forall. intros r I. apply filter_In in I. destruct I as [I _].
    rewrite Forall_forall in F. apply (F r I).
  - rewrite A. apply filter_id_iff.
Qed.

Lemma apply_filters_forallb {A} (ps : list (A -> bool)) :
  forall l, apply_filters ps l = filter (fun x => forallb (fun p => p x) ps) l.
Proof.
  unfold apply_filters. induction ps as [| p ps IH]; simpl; intro l.
  - symmetry. apply filter_all. apply Forall_forall. reflexivity.
  - rewrite IH, filter_filter. reflexivity.
Qed.

Lemma forallb_perm {A} (f : A -> bool) (l l' : list A) :
  Permutation l l' -> forallb f l = forallb f l'.
Proof.
  induction 1 as [| x l l' _ IH | x y l | l l' l'' _ IH1 _ IH2]; simpl.
  - reflexivity.
  - now rewrite IH.
  - destruct (f x), (f y); reflexivity.
  - congruence.
Qed.

(** The four masks of lines 53-56 may be applied in any order, and
    before or after [dropna]: the frame that results is the same. *)
Theorem range_filter_order {D} (qs : list (Row D -> bool)) (df : list (Row D))
    (Hperm : Permutation [ (fun r => fare_gt r 0); (fun r => fare_lt r 200);
                           (fun r => pc_gt r 0); (fun r => pc_le r 6) ] qs) :
  apply_filters qs df = range_filters df
  /\ dropna (apply_filters qs df) = apply_filters qs (dropna df).
Proof.
  assert (E : forall l : list (Row D), apply_filters qs l = range_filters l).
  { intro l. rewrite apply_filters_forallb, range_filters_filter.
    apply filter_ext. intro r.
    rewrite <- (forallb_perm (fun p : Row D -> bool => p r) _ _ Hperm).
    unfold in_range. simpl. now rewrite andb_true_r, !andb_assoc. }
  split; [apply E |]. rewrite !E, !range_filters_filter. unfold dropna.
  rewrite !filter_filter. apply filter_ext. intro r. apply andb_comm.
Qed.

(** The count printed as removed (line 58) is the number of complete
    rows that fail a range test; with the rows kept it adds up to the
    rows [dropna] left, so the subtraction never goes below zero. *)
Theorem removed_records_accounts (raw : list RawRow) (n : nat)
    (Hrem : removed_records raw = Ok n) :
  exists df,
    clean raw = Ok df
    /\ (n + List.length df = List.length (dropna raw))%nat
    /\ n = List.length (filter (fun r => negb (in_range r)) (dropna raw))
    /\ (List.length df <= List.length raw)%nat.
Proof.
  unfold removed_records in Hrem. unfold clean.
  destruct (convert_datetimes (dropna raw)) as [df1 |] eqn:C; [| discriminate].
  injection Hrem as <-. exists (range_filters df1).
  pose proof (convert_datetimes_length _ _ C) as L.
  pose proof (filter_length in_range df1) as P.
  rewrite range_filters_filter.
  assert (X : List.length (filter (fun r : TripRow => negb (in_range r)) df1)
              = List.length (filter (fun r : RawRow => negb (in_range r)) (dropna raw))).
  { pose proof (filter_untimed
                    (fun r : RawRow => negb (in_range r))
                    (fun r : TripRow => negb (in_range r))
                    ltac:(intros r r' U; cbv beta;
                          now rewrite (untimed_in_range r r' U))
                    (dropna raw) df1 (convert_datetimes_untimed _ _ C)) as U.
    apply (f_equal (@List.length _)) in U. now rewrite !length_map in U. }
  pose proof (filter_length_le complete raw) as Q. unfold dropna in *.
  unfold TripRow, RawRow in *.
  repeat split; try reflexivity; lia.
Qed.

End CleanerMore.

(** ** Features: every hour has a category, distance is a norm *)

(** Every integer, also one outside 0..23, gets one of the four
    categories (Night below 5 and from 21 on) and one of the two peak
    flags, and an Afternoon or Night hour is never a peak hour, on hours
    and on rows. *)
Theorem hour_categories_total :
  (forall x : Z, In (time_category x) ["Morning"; "Afternoon"; "Evening"; "Night"])
  /\ (forall x : Z, x < 5 \/ 21 <= x -> time_category x = "Night")
  /\ (forall x : Z, is_peak x = "Peak" \/ is_peak x = "Off-Peak")
  /\ (forall x : Z,
        time_category x = "Afternoon" \/ time_category x = "Night" ->
        is_peak x = "Off-Peak")
  /\ (forall r : TripRow,
        Col.time_category r = Some "Afternoon"
        \/ Col.time_category r = Some "Night" ->
        Col.is_peak r = Some "Off-Peak").
Proof.
  assert (T : forall x : Z,
             time_category x = "Afternoon" \/ time_category x = "Night" ->
             is_peak x = "Off-Peak").
  { intro x. destruct (is_peak_cases x) as [[I _] | [_ E]]; [| auto].
    unfold time_category.
    destruct (Z.leb_spec 5 x), (Z.ltb_spec x 12), (Z.leb_spec 12 x),
      (Z.ltb_spec x 17), (Z.leb_spec 17 x), (Z.ltb_spec x 21); simpl;
      try lia; intros [X | X]; discriminate X. }
  split; [| split; [| split; [| split; [exact T |]]]].
  - intro x. unfold time_category.
    destruct ((5 <=? x) && (x <? 12)); [simpl; auto |].
    destruct ((12 <=? x) && (x <? 17)); [simpl; auto |].
    destruct ((17 <=? x) && (x <? 21)); simpl; auto.
  - intros x Hx. unfold time_category.
    destruct (Z.leb_spec 5 x), (Z.ltb_spec x 12), (Z.leb_spec 12 x),
      (Z.ltb_spec x 17), (Z.leb_spec 17 x), (Z.ltb_spec x 21); simpl;
      try reflexivity; lia.
  - intro x. destruct (is_peak_cases x) as [[_ E] | [_ E]]; auto.
  - intro r. unfold Col.time_category, Col.is_peak.
    destruct (Col.hour r) as [x |]; [| reflexivity].
    intros [X | X]; injection X as X; f_equal; apply T; auto.
Qed.

Section DistanceMore.
Import Float64Facts.

Lemma square_nan_or_nonneg (x : float) :
  square x = nan \/ nonneg (square x) = true.
Proof.
  destruct (notna x) eqn:N; [right; now apply square_nonneg |].
  left. destruct x; try discriminate N. reflexivity.
Qed.

Lemma euclid_nan_or_nonneg (plon plat dlon dlat : float) :
  euclid plon plat dlon dlat = nan
  \/ nonneg (euclid plon plat dlon dlat) = true.
Proof.
  unfold euclid.
  destruct (square_nan_or_nonneg (sub dlon plon)) as [-> | A].
  - left. reflexivity.
  - destruct (square_nan_or_nonneg (sub dlat plat)) as [-> | B].
    + left. destruct (square (sub dlon plon)); reflexivity.
    + right. now apply sqrt_nonneg, add_nonneg.
Qed.

(** Whatever the coordinates, the distance is never below zero: it is
    NaN or compares >= 0, and it can be NaN only when a coordinate is
    NaN or infinite. *)
Theorem distance_never_negative {D} (r : Row D) :
  ltb (Col.distance r) zero = false
  /\ (isna (Col.distance r) = true \/ leb zero (Col.distance r) = true)
  /\ (isna (Col.distance r) = true -> finite_coordinates r = false).
Proof.
  unfold Col.distance.
  destruct (euclid_nan_or_nonneg (pickup_longitude r) (pickup_latitude r)
              (dropoff_longitude r) (dropoff_latitude r)) as [E | N].
  - rewrite E. split; [reflexivity |]. split; [now left |].
    intros _. destruct (finite_coordinates r) eqn:F; [| reflexivity].
    unfold finite_coordinates in F. rewrite !andb_true_iff in F.
    destruct F as [[[A B] C] G].
    pose proof (euclid_nonneg _ _ _ _ A B C G) as X. rewrite E in X. discriminate X.
  - split; [now apply nonneg_not_ltb_zero |].
    split; [right; now rewrite leb_zero_nonneg |].
    intro X. destruct (euclid _ _ _ _); discriminate.
Qed.

Lemma add_comm (x y : float) : add x y = add y x.
Proof.
  unfold add, SFadd.
  destruct x as [sx | sx | | sx mx ex], y as [sy | sy | | sy my ey];
    try reflexivity; try (destruct sx, sy; reflexivity).
  rewrite (Z.min_comm ey ex). f_equal. apply Z.add_comm.
Qed.

Lemma cond_Zopp_negb (s : bool) (m : Z) : cond_Zopp (negb s) m = - cond_Zopp s m.
Proof. destruct s; simpl; lia. Qed.

(** Negating both operands of a difference changes its sign only. *)
Lemma sub_opp_abs (a b : float) :
  SFabs (sub (SFopp a) (SFopp b)) = SFabs (sub a b).
Proof.
  unfold sub, SFsub.
  destruct a as [sa | sa | | sa ma ea], b as [sb | sb | | sb mb eb];
    try reflexivity; try (destruct sa, sb; reflexivity).
  simpl SFopp. cbv iota beta. rewrite !cond_Zopp_negb.
  set (A := cond_Zopp sa _). set (B := cond_Zopp sb _).
  replace (- A - - B) with (- (A - B)) by lia.
  apply binary_normalize_opp_abs.
Qed.

(** The distance is unchanged when longitudes and latitudes exchange
    roles, and when the trip is mirrored (both longitudes, or both
    latitudes, negated). *)
Theorem distance_isometries (plon plat dlon dlat : float) :
  euclid plat plon dlat dlon = euclid plon plat dlon dlat
  /\ euclid (SFopp plon) plat (SFopp dlon) dlat = euclid plon plat dlon dlat
  /\ euclid plon (SFopp plat) dlon (SFopp dlat) = euclid plon plat dlon dlat.
Proof.
  unfold euclid. split; [| split].
  - now rewrite add_comm.
  - now rewrite (square_abs _ _ (sub_opp_abs dlon plon)).
  - now rewrite (square_abs _ _ (sub_opp_abs dlat plat)).
Qed.

End DistanceMore.

(** ** Group-by: labels, groups, bars *)

Section GroupsMore.
Context {pd : Pandas}.

Lemma sorted_nodup_strict (l : list Z) :
  StronglySorted Z.le l -> NoDup l -> StronglySorted Z.lt l.
Proof.
  induction 1 as [| k l S IH F]; intro ND; constructor.
  - apply IH. now inversion ND.
  - inversion ND as [| ? ? N _]; subst. rewrite Forall_forall in *.
    intros x I. specialize (F x I).
    assert (x <> k) by (intro; subst; contradiction). lia.
Qed.

Lemma sorted_filter (R : Z -> Z -> Prop) (p : Z -> bool) (l : list Z) :
  StronglySorted R l -> StronglySorted R (filter p l).
Proof.
  induction 1 as [| k l S IH F]; simpl; [constructor |].
  destruct (p k); [| exact IH]. constructor; [exact IH |].
  now apply Forall_filter.
Qed.

Lemma group_keys_strict (cells : list (option Z)) :
  StronglySorted Z.lt (group_keys Z.eq_dec Z.leb cells).
Proof.
  apply sorted_nodup_strict; [apply sort_keys_sorted | apply group_keys_NoDup].
Qed.

(** The hours on the axis of charts 3 and 4 are the hours that occur in
    the frame, each once and in ascending order, the same for both
    charts; every bar of chart 4 counts the rides of its hour and is at
    least 1. *)
Theorem hourly_labels (df : list TripRow) :
  StronglySorted Z.lt (map fst (hourly_rides df))
  /\ map fst (hourly_fare df) = map fst (hourly_rides df)
  /\ (forall h, In h (map fst (hourly_rides df))
                <-> exists r, In r df /\ Col.hour r = Some h)
  /\ Forall (fun kv =>
               snd kv = List.length (filter (has_key Z.eq_dec Col.hour (fst kv)) df)
               /\ (1 <= snd kv)%nat)
            (hourly_rides df).
Proof.
  assert (L : forall V (f : list TripRow -> V),
             map fst (agg f (groupby Z.eq_dec Z.leb Col.hour df))
             = group_keys Z.eq_dec Z.leb (map Col.hour df)).
  { intros. unfold agg. now rewrite smap_labels, groupby_keys. }
  unfold hourly_rides, hourly_fare, size. rewrite !L.
  split; [apply group_keys_strict |]. split; [reflexivity |]. split.
  - intro h. rewrite group_keys_In, in_map_iff. split.
    + intros (r & E & I). eauto.
    + intros (r & I & E). eauto.
  - rewrite (agg_groupby Z.eq_dec Z.leb Col.hour (fun rows => List.length rows)).
    apply Forall_forall. intros [k n] I. apply in_map_iff in I.
    destruct I as (k' & E & I). injection E as <- <-. simpl.
    split; [reflexivity |].
    apply group_keys_In, (filter_has_key_present Z.eq_dec) in I.
    destruct (filter (has_key Z.eq_dec Col.hour k') df); [congruence | simpl; lia].
Qed.

End GroupsMore.

Section Partition.
Context {K R : Type}.
Variable K_dec : forall x y : K, {x = y} + {x <> y}.
Variable key : R -> option K.

Lemma has_key_other (k k0 : K) (r : R) :
  key r = Some k0 -> k <> k0 -> has_key K_dec key k r = false.
Proof.
  intros E N. unfold has_key, K_eqb. rewrite E.
  destruct (K_dec k0 k); [congruence | reflexivity].
Qed.

Lemma concat_groups_cons_none (ks : list K) (r : R) (df : list R) :
  key r = None ->
  List.concat (map (fun k => filter (has_key K_dec key k) (r :: df)) ks)
  = List.concat (map (fun k => filter (has_key K_dec key k) df) ks).
Proof.
  intro E. f_equal. apply map_ext. intro k. simpl.
  unfold has_key at 1. now rewrite E.
Qed.

Lemma concat_groups_cons_absent (ks : list K) (k0 : K) (r : R) (df : list R) :
  key r = Some k0 -> ~ In k0 ks ->
  List.concat (map (fun k => filter (has_key K_dec key k) (r :: df)) ks)
  = List.concat (map (fun k => filter (has_key K_dec key k) df) ks).
Proof.
  intros E N. f_equal. apply map_ext_in. intros k I. simpl.
  rewrite (has_key_other k k0 r E); [reflexivity |]. intro; subst; contradiction.
Qed.

Lemma concat_groups_perm (ks : list K) (df : list R) :
  NoDup ks ->
  (forall r k, In r df -> key r = Some k -> In k ks) ->
  Permutation (List.concat (map (fun k => filter (has_key K_dec key k) df) ks))
              (keyed key df).
Proof.
  intro ND. induction df as [| r df IH]; intro Hin.
  - simpl. clear. induction ks as [| k ks IHk]; simpl; [constructor | exact IHk].
  - assert (IH' := IH (fun r' k I => Hin r' k (or_intror I))). clear IH.
    destruct (key r) as [k0 |] eqn:E.
    + assert (Kc : keyed key (r :: df) = r :: keyed key df)
        by (unfold keyed; simpl; now rewrite E).
      assert (G : filter (has_key K_dec key k0) (r :: df)
                  = r :: filter (has_key K_dec key k0) df).
      { simpl. unfold has_key at 1. rewrite E.
        replace (K_eqb K_dec k0 k0) with true; [reflexivity |].
        symmetry. now apply K_eqb_eq. }
      rewrite Kc.
      assert (I0 : In k0 ks) by (eapply Hin; eauto; now left).
      apply in_split in I0. destruct I0 as (l1 & l2 & ->).
      apply NoDup_remove_2 in ND.
      assert (N1 : ~ In k0 l1) by (intro; apply ND, in_or_app; auto).
      assert (N2 : ~ In k0 l2) by (intro; apply ND, in_or_app; auto).
      rewrite map_app, concat_app, map_cons, concat_cons in *.
      rewrite (concat_groups_cons_absent l1 k0 r df E N1).
      rewrite (concat_groups_cons_absent l2 k0 r df E N2).
      rewrite G, <- app_comm_cons. etransitivity.
      * symmetry. apply Permutation_middle.
      * now constructor.
    + assert (Kc : keyed key (r :: df) = keyed key df)
        by (unfold keyed; simpl; now rewrite E).
      rewrite Kc, concat_groups_cons_none by exact E. exact IH'.
Qed.

End Partition.

(** The groups of a group-by partition the rows that have a key: every
    such row is in exactly one group, the group of its key; group labels
    are distinct and no group is empty. *)
Theorem groupby_partition {K R} (K_dec : forall x y : K, {x = y} + {x <> y})
    (K_leb : K -> K -> bool) (key : R -> option K) (df : list R) :
  Permutation (List.concat (map snd (groupby K_dec K_leb key df))) (keyed key df)
  /\ NoDup (map fst (groupby K_dec K_leb key df))
  /\ Forall (fun kv => snd kv <> []
                       /\ Forall (fun r => key r = Some (fst kv)) (snd kv))
            (groupby K_dec K_leb key df).
Proof.
  split; [| split].
  - unfold groupby. rewrite map_map. simpl.
    apply concat_groups_perm; [apply group_keys_NoDup |].
    intros r k I E. apply group_keys_In. rewrite <- E. now apply in_map.
  - rewrite groupby_keys. apply group_keys_NoDup.
  - unfold groupby. apply Forall_forall. intros [k rows] I.
    apply in_map_iff in I. destruct I as (k' & E & I). injection E as <- <-.
    simpl. split.
    + apply filter_has_key_present. now apply (group_keys_In K_dec K_leb).
    + apply Forall_forall. intros r Ir. apply filter_In in Ir.
      destruct Ir as [_ Hk]. unfold has_key in Hk.
      destruct (key r) as [k0 |]; [| discriminate].
      apply K_eqb_eq in Hk. now subst.
Qed.

(** ** Bars of the peak and passenger charts *)

Section BarsMore.
Context {pd : Pandas}.

Lemma two_values {A} (a b : A) (l : list A) :
  NoDup l -> (forall x, In x l -> x = a \/ x = b) ->
  l = [] \/ l = [a] \/ l = [b] \/ l = [a; b] \/ l = [b; a].
Proof.
  intros ND H. destruct l as [| x [| y [| z l]]].
  - auto.
  - destruct (H x (or_introl eq_refl)) as [-> | ->]; auto.
  - inversion ND as [| ? ? N _]; subst.
    destruct (H x (or_introl eq_refl)) as [-> | ->],
      (H y (or_intror (or_introl eq_refl))) as [-> | ->]; auto;
      exfalso; apply N; now left.
  - exfalso. inversion ND as [| ? ? Nx ND1]; subst.
    inversion ND1 as [| ? ? Ny _]; subst.
    destruct (H x (or_introl eq_refl)) as [-> | ->],
      (H y (or_intror (or_introl eq_refl))) as [-> | ->],
      (H z (or_intror (or_intror (or_introl eq_refl)))) as [-> | ->];
      solve [apply Nx; simpl; auto | apply Ny; simpl; auto].
Qed.

(** Chart 8 has at most two bars, "Off-Peak" before "Peak": the first of
    its two colours goes to Off-Peak whenever the frame has an off-peak
    ride, and to Peak only when every ride is a peak ride. *)
Theorem peak_comparison_labels (df : list TripRow) :
  In (map fst (peak_comparison df))
     [ []; ["Off-Peak"]; ["Peak"]; ["Off-Peak"; "Peak"] ]
  /\ (In "Off-Peak" (map fst (peak_comparison df))
      <-> exists r, In r df /\ Col.is_peak r = Some "Off-Peak")
  /\ (In "Peak" (map fst (peak_comparison df))
      <-> exists r, In r df /\ Col.is_peak r = Some "Peak").
Proof.
  assert (L : map fst (peak_comparison df)
              = group_keys string_dec String.leb (map Col.is_peak df)).
  { unfold peak_comparison, agg. now rewrite smap_labels, groupby_keys. }
  rewrite L. split; [| split].
  - unfold group_keys.
    destruct (two_values "Off-Peak" "Peak"
                (nodup string_dec (present (map Col.is_peak df))))
      as [E | [E | [E | [E | E]]]].
    + apply NoDup_nodup.
    + intros x I. apply nodup_In, present_In, in_map_iff in I.
      destruct I as (r & E & _). unfold Col.is_peak in E. injection E as <-.
      destruct (Col.hour r) as [h |]; [| auto].
      destruct (is_peak_cases h) as [[_ ->] | [_ ->]]; auto.
    + rewrite E. simpl. auto.
    + rewrite E. simpl. auto.
    + rewrite E. simpl. auto.
    + rewrite E. simpl. auto.
    + rewrite E. simpl. auto.
  - rewrite group_keys_In, in_map_iff. split.
    + intros (r & E & I). eauto.
    + intros (r & I & E). eauto.
  - rewrite group_keys_In, in_map_iff. split.
    + intros (r & E & I). eauto.
    + intros (r & I & E). eauto.
Qed.

Lemma clean_passenger_range (raw : list RawRow) (df : list TripRow) :
  clean raw = Ok df ->
  Forall (fun r : TripRow => exists c, passenger_count r = Some c /\ 1 <= c <= 6) df.
Proof.
  intro C. pose proof (clean_in_range raw df C) as F.
  revert F. apply Forall_impl. intros r R.
  apply in_range_spec in R. destruct R as (_ & _ & c & E & B).
  exists c. split; [exact E | lia].
Qed.

(** On the cleaned frame chart 9 has at most six bars, for passenger
    counts between 1 and 6 in ascending order, and the count of each bar
    is the number of rides with that passenger count. *)
Theorem passenger_stats_labels (raw : list RawRow) (df : list TripRow)
    (Hclean : clean raw = Ok df) :
  StronglySorted Z.lt (map fst (passenger_stats df))
  /\ Forall (fun k => 1 <= k <= 6) (map fst (passenger_stats df))
  /\ (List.length (passenger_stats df) <= 6)%nat
  /\ Forall (fun kv => snd (snd kv) = frequency (fst kv) df
                       /\ (1 <= snd (snd kv))%nat)
            (passenger_stats df).
Proof.
  assert (L : map fst (passenger_stats df)
              = group_keys Z.eq_dec Z.leb (map passenger_count df)).
  { unfold passenger_stats, agg. now rewrite smap_labels, groupby_keys. }
  pose proof (clean_passenger_range raw df Hclean) as P.
  assert (B : Forall (fun k => 1 <= k <= 6) (map fst (passenger_stats df))).
  { rewrite L. apply Forall_forall. intros k I.
    apply group_keys_In, in_map_iff in I. destruct I as (r & E & I).
    rewrite Forall_forall in P. destruct (P r I) as (c & E' & Hc). congruence. }
  split; [rewrite L; apply group_keys_strict |]. split; [exact B |]. split.
  - rewrite <- (length_map fst).
    change 6%nat with (List.length [1; 2; 3; 4; 5; 6]).
    apply NoDup_incl_length.
    + rewrite L. apply group_keys_NoDup.
    + intros k I. rewrite Forall_forall in B. specialize (B k I). simpl. lia.
  - unfold passenger_stats. rewrite agg_groupby.
    apply Forall_forall. intros [k [m c]] I. apply in_map_iff in I.
    destruct I as (k' & E & I). injection E as <- <- <-. simpl.
    rewrite group_count_all.
    + split; [reflexivity |].
      apply group_keys_In, (filter_has_key_present Z.eq_dec) in I.
      destruct (filter (has_key Z.eq_dec passenger_count k') df);
        [congruence | simpl; lia].
    + apply Forall_filter, (clean_cells raw df Hclean).
Qed.

(** The most common passenger count of the report is the label of the
    tallest bar of chart 9, the leftmost one when several are as tall. *)
Theorem most_common_tallest_bar (raw : list RawRow) (df : list TripRow) (m : Z)
    (Hclean : clean raw = Ok df) (Hm : most_common_passengers df = Ok m) :
  (exists avg, lookup Z.eq_dec m (passenger_stats df) = Some (avg, frequency m df))
  /\ Forall (fun kv => (snd (snd kv) <= frequency m df)%nat
                       /\ (snd (snd kv) = frequency m df -> m <= fst kv))
            (passenger_stats df).
Proof.
  unfold most_common_passengers in Hm.
  destruct (mode Z.eq_dec Z.leb (Col.passenger_count df)) as [| m' rest] eqn:Mo;
    [discriminate |].
  injection Hm as ->. destruct (mode_head _ _ _ Mo) as (P & U & Lo).
  rewrite occurrences_frequency in P.
  assert (N : Forall (fun r : TripRow => notna (fare_amount r) = true) df)
    by apply (clean_cells raw df Hclean).
  split.
  - unfold passenger_stats. rewrite lookup_agg_groupby.
    change (List.length (filter (has_key Z.eq_dec passenger_count m) df))
      with (frequency m df).
    destruct (Nat.eqb (frequency m df) 0) eqn:Z0;
      [apply Nat.eqb_eq in Z0; lia |].
    eexists. f_equal. f_equal. apply group_count_all, Forall_filter, N.
  - unfold passenger_stats. rewrite agg_groupby.
    apply Forall_forall. intros [k [a c]] I. apply in_map_iff in I.
    destruct I as (k' & E & I). injection E as <- <- <-. simpl.
    rewrite group_count_all by apply Forall_filter, N.
    assert (U' : forall w, (frequency w df <= frequency m df)%nat)
      by (intro; rewrite <- !occurrences_frequency; apply U).
    assert (Lo' : forall w, frequency w df = frequency m df -> m <= w)
      by (intro; rewrite <- !occurrences_frequency; apply Lo).
    split; [apply (U' k') | apply (Lo' k')].
Qed.

End BarsMore.

(** ** Ties of idxmax, and the whole mode *)

Section ArgmaxFirst.
Context {K V : Type}.
Variable v_notna : V -> bool.
Variables v_ltb v_leb : V -> V -> bool.
Hypothesis lt_le : forall a b, v_ltb a b = true -> v_leb a b = true.
Hypothesis not_lt : forall a b,
    v_notna a = true -> v_notna b = true -> v_ltb a b = false -> v_leb b a = true.
Hypothesis le_refl : forall a, v_notna a = true -> v_leb a a = true.
Hypothesis le_trans : forall a b c,
    v_leb a b = true -> v_leb b c = true -> v_leb a c = true.
Hypothesis lt_strict : forall a b, v_ltb a b = true -> v_leb b a = false.

Lemma idxmax_from_first (s : Series K V) :
  forall best : K * V,
    v_notna (snd best) = true ->
    exists pre post,
      best :: s = (pre ++ idxmax_from v_notna v_ltb best s :: post)%list
      /\ Forall (fun kv => v_notna (snd kv) = true ->
                           v_leb (snd (idxmax_from v_notna v_ltb best s)) (snd kv)
                           = false) pre.
Proof.
  induction s as [| [k v] s IH]; simpl; intros best Nb.
  - exists [], []. split; [reflexivity | constructor].
  - destruct (v_notna v && v_ltb (snd best) v) eqn:T.
    + apply andb_true_iff in T. destruct T as [Nv L].
      destruct (IH (k, v) Nv) as (pre & post & E & F).
      destruct (idxmax_from_spec v_notna v_ltb v_leb lt_le not_lt le_refl le_trans
                  s (k, v) Nv) as (_ & _ & B & _).
      simpl in B. exists (best :: pre), post. split.
      * simpl. now rewrite E.
      * constructor; [| exact F]. intros _.
        destruct (v_leb (snd (idxmax_from v_notna v_ltb (k, v) s)) (snd best)) eqn:X;
          [| reflexivity].
        pose proof (le_trans _ _ _ B X) as Y. rewrite (lt_strict _ _ L) in Y.
        discriminate Y.
    + destruct (IH best Nb) as (pre & post & E & F).
      destruct pre as [| p pre].
      * simpl in E. injection E as E1 E2.
        exists [], ((k, v) :: s). split; [| constructor].
        simpl. now rewrite <- E1.
      * simpl in E. injection E as E1 E2. subst p.
        inversion F as [| ? ? Fb Fr]; subst.
        exists (best :: (k, v) :: pre), post. split.
        -- simpl. f_equal. f_equal. exact E2.
        -- constructor; [exact Fb |]. constructor; [| exact Fr].
           simpl. intro Nv. rewrite Nv in T. simpl in T.
           pose proof (not_lt _ _ Nb Nv T) as Le.
           destruct (v_leb (snd (idxmax_from v_notna v_ltb best s)) v) eqn:X;
             [| reflexivity].
           pose proof (le_trans _ _ _ X Le) as Y. rewrite (Fb Nb) in Y.
           discriminate Y.
Qed.

(** The entry [argmax] returns is the first of the largest: no value
    before it is as large. *)
Lemma argmax_first (s : Series K V) (r : K * V) :
  argmax v_notna v_ltb s = Some r ->
  exists pre post,
    s = (pre ++ r :: post)%list
    /\ Forall (fun kv => v_notna (snd kv) = true -> v_leb (snd r) (snd kv) = false)
              pre.
Proof.
  induction s as [| [k v] s IH]; simpl; [discriminate |].
  destruct (v_notna v) eqn:Nv.
  - intro E. injection E as <-. apply (idxmax_from_first s (k, v) Nv).
  - intro E. destruct (IH E) as (pre & post & -> & F).
    exists ((k, v) :: pre), post. split; [reflexivity |].
    constructor; [| exact F]. simpl. congruence.
Qed.

End ArgmaxFirst.

Section TiesMore.
Context {pd : Pandas}.

Lemma count_lt_strict (a b : option nat) :
  count_ltb a b = true -> count_leb b a = false.
Proof.
  destruct a as [x |], b as [y |]; simpl; try discriminate.
  rewrite Nat.ltb_lt, Nat.leb_gt. auto.
Qed.

Lemma float_lt_strict (a b : float) : ltb a b = true -> leb b a = false.
Proof.
  unfold ltb, leb, SFltb, SFleb. rewrite (Float64Order.compare_antisym a b).
  destruct (SFcompare a b) as [[] |]; simpl; auto; discriminate.
Qed.

Lemma float_not_leb_ltb (a b : float) :
  notna a = true -> notna b = true -> leb a b = false -> ltb b a = true.
Proof.
  unfold ltb, leb, SFltb, SFleb. rewrite (Float64Order.compare_antisym a b).
  destruct a as [sa | sa | | sa ma ea], b as [sb | sb | | sb mb eb];
    try discriminate; intros _ _;
    destruct (SFcompare _ _) as [[] |] eqn:E; simpl; auto; discriminate.
Qed.

Lemma split_labels {V} (s pre post : Series string V) (r : string * V) :
  s = (pre ++ r :: post)%list ->
  map fst s = (map fst pre ++ fst r :: map fst post)%list.
Proof. intros ->. now rewrite map_app. Qed.

(** When several weekdays share the largest ride count, the report
    names the one that comes first from Monday on, and likewise for the
    largest mean fare: every weekday before a reported one has strictly
    fewer rides, respectively a strictly smaller mean. *)
Theorem extremes_earliest (raw : list RawRow) (rep : Report) (log : list event)
    (Hrun : run raw = (Ok rep, log)) :
  exists df,
    clean raw = Ok df
    /\ (forall d, busiest_day rep = Some d ->
          exists pre post,
            weekday_order = (pre ++ d :: post)%list
            /\ Forall (fun d' => (List.length (rides_on d' df)
                                  < List.length (rides_on d df))%nat) pre)
    /\ (forall d, highest_fare_day rep = Some d ->
          exists pre post,
            weekday_order = (pre ++ d :: post)%list
            /\ Forall (fun d' =>
                         rides_on d' df <> [] ->
                         notna (group_mean (rides_on d' df)) = true ->
                         ltb (group_mean (rides_on d' df))
                             (group_mean (rides_on d df)) = true) pre).
Proof.
  destruct (completed_run raw rep log Hrun) as (r & df0 & C & B & _ & _).
  remember (r :: df0) as df eqn:Edf. clear Edf df0. exists df.
  split; [exact C |].
  destruct (build_report_Ok df rep B) as (L1 & _ & L2 & _).
  destruct (idxmax_label_Ok _ _ _ _ L1) as [E1 _].
  destruct (idxmax_label_Ok _ _ _ _ L2) as [E2 _].
  rewrite E1, E2. unfold idxmax. split.
  - intros d Hd.
    destruct (argmax is_some count_ltb (weekday_rides df)) as [[d0 v0] |] eqn:A;
      [| discriminate]. simpl in Hd. injection Hd as ->.
    pose proof (busiest_day_spec df) as S. rewrite A in S.
    destruct S as (-> & Id & Nd & M).
    destruct (argmax_first is_some count_ltb count_leb count_lt_le count_not_lt
                count_le_refl count_le_trans count_lt_strict _ _ A)
      as (pre & post & E & P).
    exists (map fst pre), (map fst post). split.
    + rewrite <- (reindex_labels string_dec weekday_order
                    (size (groupby string_dec String.leb Col.weekday df))).
      apply (split_labels _ _ _ _ E).
    + apply Forall_forall. intros d' I. apply in_map_iff in I.
      destruct I as ([d'' v] & Ed & I). simpl in Ed. subst d''.
      rewrite Forall_forall in P. specialize (P _ I). simpl in P.
      assert (Iw : In (d', v) (weekday_rides df)).
      { rewrite E. apply in_or_app. now left. }
      destruct (weekday_rides_entry _ _ _ Iw) as [_ Ev].
      assert (Pos : (0 < List.length (rides_on d df))%nat).
      { destruct (rides_on d df); [congruence | simpl; lia]. }
      destruct (Nat.eqb (List.length (rides_on d' df)) 0) eqn:Z0.
      * apply Nat.eqb_eq in Z0. lia.
      * subst v. specialize (P eq_refl). apply Nat.leb_gt in P. exact P.
  - intros d Hd.
    destruct (argmax notna ltb (weekday_fare df)) as [[d0 v0] |] eqn:A;
      [| discriminate]. simpl in Hd. injection Hd as ->.
    destruct (argmax_first notna ltb leb Float64Order.ltb_leb
                Float64Order.not_ltb_leb Float64Order.leb_refl
                Float64Order.leb_trans float_lt_strict _ _ A)
      as (pre & post & E & P).
    pose proof (highest_fare_day_spec df) as S. rewrite A in S.
    destruct S as (_ & _ & Ev0 & Nv0 & _).
    exists (map fst pre), (map fst post). split.
    + assert (X : map fst (weekday_fare df) = weekday_order).
      { unfold weekday_fare. now rewrite smap_labels, reindex_labels. }
      rewrite <- X. apply (split_labels _ _ _ _ E).
    + apply Forall_forall. intros d' I Nd' Nm. apply in_map_iff in I.
      destruct I as ([d'' v] & Ed & I). simpl in Ed. subst d''.
      rewrite Forall_forall in P. specialize (P _ I). simpl in P.
      assert (Iw : In (d', v) (weekday_fare df)).
      { rewrite E. apply in_or_app. now left. }
      destruct (weekday_fare_entry _ _ _ Iw) as [_ Ev].
      destruct (Nat.eqb (List.length (rides_on d' df)) 0) eqn:Z0.
      * apply length_zero_nil in Z0. contradiction.
      * subst v v0. apply float_not_leb_ltb; auto.
Qed.

(** The mode lists exactly the values that occur and occur most often,
    in ascending order; it is empty only when no cell is present. *)
Theorem mode_spec (cells : list (option Z)) :
  (forall v, In v (mode Z.eq_dec Z.leb cells)
             <-> (0 < occurrences cells v)%nat
                 /\ occurrences cells v = top_count cells)
  /\ StronglySorted Z.lt (mode Z.eq_dec Z.leb cells)
  /\ (mode Z.eq_dec Z.leb cells = [] <-> present cells = []).
Proof.
  rewrite mode_filter. split; [| split].
  - intro v. rewrite filter_In, Nat.eqb_eq, group_keys_In. split.
    + intros [I E]. split; [now apply occurrences_present | exact E].
    + intros [P E]. split; [| exact E].
      destruct (in_dec Z.eq_dec v (group_keys Z.eq_dec Z.leb cells)) as [I | N].
      * now apply group_keys_In in I.
      * rewrite occurrences_absent in P; [lia |].
        intro X. apply N. now apply group_keys_In.
  - apply sorted_filter, group_keys_strict.
  - rewrite <- mode_filter. split.
    + intro E. destruct (present cells) as [| k l] eqn:P; [reflexivity |].
      exfalso. apply (mode_nonempty cells k); [| exact E].
      apply present_In. rewrite P. now left.
    + intro P. rewrite mode_filter. unfold group_keys. rewrite P. reflexivity.
Qed.

End TiesMore.

(** ** The run: how it ends and what it leaves behind *)

Section RunMore.
Context {pd : Pandas}.




Lemma sum_nat_bound {A} (f : A -> nat) (b : nat) (l : list A) :
  (forall x, In x l -> (f x <= b)%nat) ->
  (sum_nat (map f l) <= List.length l * b)%nat.
Proof.
  induction l as [| a l IH]; simpl; intro H; [lia |].
  pose proof (H a (or_introl eq_refl)).
  specialize (IH (fun x I => H x (or_intror I))). lia.
Qed.

Lemma rides_total (df : list TripRow) :
  sum_nat (map (fun d => List.length (rides_on d df)) weekday_order)
  = List.length (keyed pickup_datetime df).
Proof.
  unfold rides_on. rewrite (group_sizes_sum string_dec).
  - unfold Col.weekday. now rewrite keyed_timestamp.
  - apply weekday_order_NoDup.
  - intros r k _. unfold Col.weekday.
    destruct (pickup_datetime r) as [t |]; simpl; [| discriminate].
    intro E. injection E as <-. apply day_name_In.
Qed.

Lemma frequency_positive (m : Z) (df : list TripRow) :
  (0 < frequency m df)%nat -> exists r, In r df /\ passenger_count r = Some m.
Proof.
  unfold frequency. intro P.
  destruct (filter (has_key Z.eq_dec passenger_count m) df) as [| r rs] eqn:E;
    [simpl in P; lia |].
  assert (I : In r (filter (has_key Z.eq_dec passenger_count m) df))
    by (rewrite E; now left).
  apply filter_In in I. destruct I as [I Hk]. exists r. split; [exact I |].
  unfold has_key in Hk. destruct (passenger_count r) as [c |]; [| discriminate].
  apply K_eqb_eq in Hk. now subst.
Qed.

(** The counts of the report fit together: the record count is that of
    the cleaned frame and is positive; the outliers are no more than the
    records; the most common passenger count lies between 1 and 6; and
    the busiest day, when the report names one, has between one ride and
    all of them, and at least a seventh of the rides that have a
    timestamp.  The report names none only when no ride has a timestamp
    and [idxmax] does not raise on a series without values. *)
Theorem report_counts (raw : list RawRow) (rep : Report) (log : list event)
    (Hrun : run raw = (Ok rep, log)) :
  exists df,
    clean raw = Ok df
    /\ total_records rep = List.length df
    /\ (0 < total_records rep)%nat
    /\ (outlier_count rep <= total_records rep)%nat
    /\ 1 <= most_common rep <= 6
    /\ (List.length (keyed pickup_datetime df) <= total_records rep)%nat
    /\ match busiest_rides rep with
       | Some (Some n) =>
           (exists d, busiest_day rep = Some d
                      /\ n = List.length (rides_on d df))
           /\ (1 <= n <= total_records rep)%nat
           /\ (List.length (keyed pickup_datetime df) <= 7 * n)%nat
       | Some None => False
       | None =>
           busiest_day rep = None /\ keyed pickup_datetime df = []
           /\ idxmax_all_na_raises = false
       end.
Proof.
  destruct (completed_run raw rep log Hrun) as (r & df0 & C & B & _ & _).
  remember (r :: df0) as df eqn:Edf.
  assert (Pos : (0 < List.length df)%nat) by (subst df; simpl; lia).
  clear Edf df0. exists df. split; [exact C |].
  destruct (build_report_Ok df rep B)
    as (L1 & M1 & _ & _ & Em & _ & Ec & Et & _).
  destruct (idxmax_label_Ok _ _ _ _ L1) as [E1 N1].
  rewrite Et, Ec. split; [reflexivity |]. split; [exact Pos |].
  split; [apply filter_length_le |]. split; [| split].
  - unfold most_common_passengers in Em.
    destruct (mode Z.eq_dec Z.leb (Col.passenger_count df)) as [| m' rest] eqn:Mo;
      [discriminate |].
    injection Em as Em. rewrite <- Em.
    destruct (mode_head _ _ _ Mo) as (P & _ & _).
    rewrite occurrences_frequency in P.
    destruct (frequency_positive m' df P) as (x & Ix & Ex).
    pose proof (clean_passenger_range raw df C) as R.
    rewrite Forall_forall in R. destruct (R x Ix) as (c & Ec' & Hc). congruence.
  - apply filter_length_le.
  - pose proof (busiest_day_spec df) as S.
    pose proof (idxmax_rides_None df) as R.
    rewrite M1. rewrite E1 in N1 |- *. unfold idxmax, smax in *.
    destruct (argmax is_some count_ltb (weekday_rides df)) as [[d v] |];
      simpl in *.
    + destruct S as (-> & Id & Nd & M). split; [eauto |].
      pose proof (rides_total df) as T.
      pose proof (sum_nat_bound (fun d' => List.length (rides_on d' df))
                    (List.length (rides_on d df)) weekday_order
                    (fun d' _ => M d')) as U.
      rewrite T in U. change (List.length weekday_order) with 7%nat in U.
      assert (Le : (List.length (rides_on d df) <= List.length df)%nat)
        by apply filter_length_le.
      assert (P1 : (0 < List.length (rides_on d df))%nat).
      { destruct (rides_on d df); [congruence | simpl; lia]. }
      unfold TripRow in *. lia.
    + split; [reflexivity |]. split; [now apply R | auto].
Qed.

End RunMore.

(** ** Report scalars: missing values, fare range, passengers *)

Section ScalarsMore.
Context {pd : Pandas}.




Lemma fold_pick_min (rest : list float) :
  forall x, notna x = true -> Forall (fun y => notna y = true) rest ->
    let m := fold_left pick_min rest x in
    In m (x :: rest) /\ leb m x = true
    /\ Forall (fun y => leb m y = true) rest.
Proof.
  induction rest as [| y rest IH]; simpl; intros x Nx Nr.
  - repeat split; auto. now apply Float64Order.leb_refl.
  - inversion Nr as [| ? ? Ny Nr']; subst.
    assert (Np : notna (pick_min x y) = true)
      by (unfold pick_min; destruct (ltb y x); assumption).
    destruct (IH (pick_min x y) Np Nr') as (I & L & A).
    assert (Lx : leb (pick_min x y) x = true).
    { unfold pick_min. destruct (ltb y x) eqn:T.
      - now apply Float64Order.ltb_leb.
      - now apply Float64Order.leb_refl. }
    assert (Ly : leb (pick_min x y) y = true).
    { unfold pick_min. destruct (ltb y x) eqn:T.
      - now apply Float64Order.leb_refl.
      - now apply Float64Order.not_ltb_leb. }
    split; [| split].
    + destruct I as [<- | I]; [| auto].
      unfold pick_min. destruct (ltb y x); auto.
    + eapply Float64Order.leb_trans; eauto.
    + constructor; [eapply Float64Order.leb_trans; eauto | exact A].
Qed.

Lemma fold_pick_max (rest : list float) :
  forall x, notna x = true -> Forall (fun y => notna y = true) rest ->
    let m := fold_left pick_max rest x in
    In m (x :: rest) /\ leb x m = true
    /\ Forall (fun y => leb y m = true) rest.
Proof.
  induction rest as [| y rest IH]; simpl; intros x Nx Nr.
  - repeat split; auto. now apply Float64Order.leb_refl.
  - inversion Nr as [| ? ? Ny Nr']; subst.
    assert (Np : notna (pick_max x y) = true)
      by (unfold pick_max; destruct (ltb x y); assumption).
    destruct (IH (pick_max x y) Np Nr') as (I & L & A).
    assert (Lx : leb x (pick_max x y) = true).
    { unfold pick_max. destruct (ltb x y) eqn:T.
      - now apply Float64Order.ltb_leb.
      - now apply Float64Order.leb_refl. }
    assert (Ly : leb y (pick_max x y) = true).
    { unfold pick_max. destruct (ltb x y) eqn:T.
      - now apply Float64Order.leb_refl.
      - now apply Float64Order.not_ltb_leb. }
    split; [| split].
    + destruct I as [<- | I]; [| auto].
      unfold pick_max. destruct (ltb x y); auto.
    + eapply Float64Order.leb_trans; eauto.
    + constructor; [eapply Float64Order.leb_trans; eauto | exact A].
Qed.

(** On a cleaned frame with at least one row, the fare range of the
    report consists of two fares of the frame, the least and the
    largest, both strictly between 0 and 200. *)
Theorem fare_range (raw : list RawRow) (df : list TripRow)
    (Hclean : clean raw = Ok df) (Hrows : df <> []) :
  In (fare_min df) (Col.fare_amount df)
  /\ In (fare_max df) (Col.fare_amount df)
  /\ Forall (fun x => leb (fare_min df) x = true /\ leb x (fare_max df) = true)
            (Col.fare_amount df)
  /\ ltb (of_Z 0) (fare_min df) = true
  /\ ltb (fare_max df) (of_Z 200) = true.
Proof.
  assert (N : Forall (fun x => notna x = true) (Col.fare_amount df)).
  { destruct (clean_cells raw df Hclean) as [_ C].
    unfold Col.fare_amount. apply Forall_forall. intros x I.
    apply in_map_iff in I. destruct I as (r & <- & I).
    rewrite Forall_forall in C. apply (C r I). }
  assert (B : Forall (fun x => ltb (of_Z 0) x = true /\ ltb x (of_Z 200) = true)
                     (Col.fare_amount df)).
  { pose proof (clean_in_range raw df Hclean) as R.
    unfold Col.fare_amount. apply Forall_forall. intros x I.
    apply in_map_iff in I. destruct I as (r & <- & I).
    rewrite Forall_forall in R. specialize (R r I).
    apply in_range_spec in R. tauto. }
  unfold fare_min, fare_max, series_min, series_max.
  rewrite (filter_all notna _ N).
  destruct (Col.fare_amount df) as [| x rest] eqn:E.
  { destruct df; [congruence | discriminate E]. }
  inversion N as [| ? ? Nx Nr]; subst.
  destruct (fold_pick_min rest x Nx Nr) as (I1 & L1 & A1).
  destruct (fold_pick_max rest x Nx Nr) as (I2 & L2 & A2).
  rewrite Forall_forall in B.
  split; [exact I1 |]. split; [exact I2 |]. split.
  - constructor; [auto |]. rewrite Forall_forall in *. auto.
  - split; [apply (B _ I1) | apply (B _ I2)].
Qed.

Lemma fold_max_spec (rest : list Z) :
  forall c, let M := fold_left Z.max rest c in
            In M (c :: rest) /\ c <= M /\ Forall (fun y => y <= M) rest.
Proof.
  induction rest as [| y rest IH]; simpl; intro c.
  - repeat split; auto. lia.
  - destruct (IH (Z.max c y)) as (I & L & A). split; [| split].
    + destruct I as [<- | I]; [| auto].
      destruct (Z.max_spec c y) as [[_ ->] | [_ ->]]; auto.
    + lia.
    + constructor; [lia | exact A].
Qed.

(** On a cleaned frame with at least one row the largest passenger
    count of the report exists, is the count of some ride, lies between
    1 and 6, and no ride and no mode exceeds it. *)
Theorem max_passengers_range (raw : list RawRow) (df : list TripRow)
    (Hclean : clean raw = Ok df) (Hrows : df <> []) :
  exists M,
    max_passengers df = Some M
    /\ 1 <= M <= 6
    /\ (exists r, In r df /\ passenger_count r = Some M)
    /\ Forall (fun r : TripRow => forall c, passenger_count r = Some c -> c <= M) df
    /\ (forall m, most_common_passengers df = Ok m -> m <= M).
Proof.
  pose proof (clean_passenger_range raw df Hclean) as R.
  unfold max_passengers.
  destruct (present (Col.passenger_count df)) as [| c rest] eqn:P.
  { exfalso. destruct df as [| r df]; [congruence |].
    inversion R as [| ? ? (c & E & _) _]; subst.
    assert (I : In c (present (Col.passenger_count (r :: df)))).
    { apply present_In. unfold Col.passenger_count. simpl. now left. }
    rewrite P in I. exact I. }
  destruct (fold_max_spec rest c) as (I & L & A).
  set (M := fold_left Z.max rest c) in *.
  assert (In_df : forall v, In v (c :: rest) <->
                            exists r, In r df /\ passenger_count r = Some v).
  { intro v. rewrite <- P, present_In. unfold Col.passenger_count.
    rewrite in_map_iff. split; intros (r & X & Y); eauto. }
  assert (Ub : forall r v, In r df -> passenger_count r = Some v -> v <= M).
  { intros r v Ir Ev. assert (Iv : In v (c :: rest)) by (apply In_df; eauto).
    destruct Iv as [<- | Iv]; [exact L |]. rewrite Forall_forall in A. auto. }
  exists M. split; [reflexivity |].
  destruct (proj1 (In_df M) I) as (r & Ir & Er).
  rewrite Forall_forall in R. split.
  - destruct (R r Ir) as (c' & Ec & Hc). congruence.
  - split; [eauto |]. split.
    + apply Forall_forall. intros x Ix v Ev. eapply Ub; eauto.
    + intros m Hm. unfold most_common_passengers in Hm.
      destruct (mode Z.eq_dec Z.leb (Col.passenger_count df)) as [| m' tl] eqn:Mo;
        [discriminate |].
      injection Hm as ->. destruct (mode_head _ _ _ Mo) as (Pm & _ & _).
      rewrite occurrences_frequency in Pm.
      destruct (frequency_positive m df Pm) as (x & Ix & Ex). eapply Ub; eauto.
Qed.

End ScalarsMore.

(** ** The outlier percentage as a number *)

Section PercentMore.
Context {pd : Pandas}.
Import Float64Facts.

Lemma digits2_pos_iter (p k : positive) :
  digits2_pos (Pos.iter xO p k) = (digits2_pos p + k)%positive.
Proof.
  induction k as [| k IH] using Pos.peano_ind.
  - simpl. now rewrite Pos.add_1_r.
  - rewrite Pos.iter_succ. simpl. rewrite IH. lia.
Qed.

Lemma digits2_pos_lower (p : positive) :
  2 ^ (Z.pos (digits2_pos p) - 1) <= Z.pos p.
Proof.
  induction p as [p IH | p IH |]; simpl digits2_pos.
  - rewrite Pos2Z.inj_succ.
    replace (Z.succ (Z.pos (digits2_pos p)) - 1)
      with (Z.succ (Z.pos (digits2_pos p) - 1)) by lia.
    rewrite Z.pow_succ_r by lia. lia.
  - rewrite Pos2Z.inj_succ.
    replace (Z.succ (Z.pos (digits2_pos p)) - 1)
      with (Z.succ (Z.pos (digits2_pos p) - 1)) by lia.
    rewrite Z.pow_succ_r by lia. lia.
  - simpl. lia.
Qed.

(** A mantissa of full width within the exponent range is left as it is
    by the rounding. *)
Lemma binary_round_aux_canonical (s : bool) (m : positive) (e : Z) :
  Z.pos (digits2_pos m) = prec -> -1074 <= e <= 971 ->
  binary_round_aux prec emax s (Z.pos m) e loc_Exact = S754_finite s m e.
Proof.
  intros Hd He.
  assert (F : fexp prec emax (Zdigits2 (Z.pos m) + e) - e = 0).
  { unfold fexp, emin. simpl Zdigits2. rewrite Hd. unfold prec, emax. lia. }
  unfold binary_round_aux, shr_fexp. rewrite F.
  cbn [shr shr_record_of_loc shr_m loc_of_shr_record round_nearest_even shr_r shr_s].
  rewrite F. cbn [shr shr_record_of_loc shr_m].
  destruct (Z.leb_spec e (emax - prec)) as [_ | G]; [reflexivity |].
  unfold emax, prec in G. lia.
Qed.

(** An integer from 1 to 2^53 - 1 converts to a positive finite float. *)
Lemma of_Z_small (p : positive) :
  Z.pos p < 2 ^ 53 -> exists m e, of_Z (Z.pos p) = S754_finite false m e.
Proof.
  intro B. unfold of_Z, binary_normalize, binary_round.
  pose proof (digits2_pos_lower p) as L.
  assert (D : Z.pos (digits2_pos p) <= 53).
  { destruct (Z_le_gt_dec (Z.pos (digits2_pos p)) 53) as [? | G]; [assumption |].
    assert (2 ^ 53 <= 2 ^ (Z.pos (digits2_pos p) - 1))
      by (apply Z.pow_le_mono_r; lia).
    lia. }
  assert (F : fexp prec emax (Z.pos (digits2_pos p) + 0)
              = Z.pos (digits2_pos p) - 53).
  { unfold fexp, emin, prec, emax. lia. }
  rewrite F. unfold shl_align.
  destruct (Z.pos (digits2_pos p) - 53 - 0) as [| k | k] eqn:S.
  - exists p, 0. apply binary_round_aux_canonical; unfold prec; lia.
  - lia.
  - exists (Pos.iter xO p k), (Z.pos (digits2_pos p) - 53).
    apply binary_round_aux_canonical.
    + rewrite digits2_pos_iter. unfold prec. lia.
    + lia.
Qed.

Lemma div_eucl_nonneg (a : Z) (b : positive) :
  0 <= a -> 0 <= fst (Z.div_eucl a (Z.pos b)).
Proof.
  intro A. pose proof (Z.div_pos a (Z.pos b) A ltac:(lia)) as Q.
  unfold Z.div in Q. now destruct (Z.div_eucl a (Z.pos b)).
Qed.

Lemma div_finite_nonneg (x : float) (m : positive) (e : Z) :
  nonneg x = true -> is_finite x = true ->
  nonneg (div x (S754_finite false m e)) = true.
Proof.
  unfold div, SFdiv.
  destruct x as [sx | [] | | [] mx ex]; simpl; intros N Fi; try discriminate;
    try reflexivity.
  unfold SFdiv_core_binary.
  set (m' := match _ - _ - _ with Z0 => Z.pos mx | Z.pos _ => _ | Z.neg _ => 0 end).
  assert (M : 0 <= m').
  { subst m'. destruct (_ - _ - _); [lia | apply Z.shiftl_nonneg; lia | lia]. }
  pose proof (div_eucl_nonneg m' m M) as Q.
  destruct (Z.div_eucl m' (Z.pos m)) as [q r]. simpl in Q.
  match goal with
  | |- nonneg (binary_round_aux _ _ false q ?e' ?l) = true =>
      pose proof (binary_round_aux_signed false q e' l Q) as S;
      destruct (binary_round_aux prec emax false q e' l) as [s' | s' | | s' m0 e0];
      simpl in S; try contradiction; subst; reflexivity
  end.
Qed.

Lemma mul_finite_nonneg (x : float) (m : positive) (e : Z) :
  nonneg x = true -> nonneg (mul x (S754_finite false m e)) = true.
Proof.
  unfold mul, SFmul.
  destruct x as [sx | [] | | [] mx ex]; simpl; intro N; try discriminate;
    try reflexivity.
  pose proof (binary_round_aux_signed false (Z.pos (mx * m)) (ex + e) loc_Exact
                ltac:(lia)) as S.
  destruct (binary_round_aux prec emax false _ _ _) as [s' | s' | | s' m0 e0];
    simpl in S; try contradiction; subst; reflexivity.
Qed.

Lemma nonneg_isna (x : float) : nonneg x = true -> isna x = false.
Proof. destruct x as [s | [] | | [] m e]; simpl; congruence. Qed.

Lemma of_nat_cases (n : nat) :
  Z.of_nat n < 2 ^ 53 ->
  n = 0%nat /\ of_Z (Z.of_nat n) = zero
  \/ exists m e, of_Z (Z.of_nat n) = S754_finite false m e.
Proof.
  intro B. destruct n as [| n]; [left; split; reflexivity |].
  right. change (Z.of_nat (S n)) with (Z.pos (Pos.of_succ_nat n)) in *.
  now apply of_Z_small.
Qed.

(** In a completed run on fewer than 2^53 records the outlier
    percentage is a number: it is not NaN and not below zero, and it is
    exactly +0 when there is no outlier. *)
Theorem outlier_percent_defined (raw : list RawRow) (rep : Report)
    (log : list event) (Hrun : run raw = (Ok rep, log))
    (Hsize : Z.of_nat (total_records rep) < 2 ^ 53) :
  nonneg (outlier_percent rep) = true
  /\ isna (outlier_percent rep) = false
  /\ (outlier_count rep = 0%nat -> outlier_percent rep = zero).
Proof.
  destruct (completed_run raw rep log Hrun) as (r & df0 & C & B & _).
  remember (r :: df0) as df eqn:Edf.
  assert (Pos : (0 < List.length df)%nat) by (subst df; simpl; lia).
  clear Edf df0 C.
  destruct (build_report_Ok df rep B) as (_ & _ & _ & _ & _ & Ep & Ec & Et & _).
  rewrite Et in Hsize. rewrite Ec. clear B Ec Et.
  unfold outlier_pct, true_div in Ep.
  destruct (Nat.eqb (List.length df) 0) eqn:Z0;
    [apply Nat.eqb_eq in Z0; lia |].
  injection Ep as Ep. rewrite <- Ep. clear Ep.
  assert (Le : (List.length (outliers df) <= List.length df)%nat)
    by (unfold outliers; apply filter_length_le).
  destruct (of_nat_cases (List.length df) Hsize) as [[E _] | (mb & eb & Eb)];
    [lia |].
  destruct (of_Z_small 100 ltac:(lia)) as (mh & eh & Eh).
  change (of_Z 100) with (binary_round prec emax false 100 0) in Eh.
  rewrite Eb, Eh.
  assert (N : nonneg (mul (div (of_Z (Z.of_nat (List.length (outliers df))))
                               (S754_finite false mb eb))
                          (S754_finite false mh eh)) = true).
  { assert (Ho : Z.of_nat (List.length (outliers df)) < 2 ^ 53).
    { apply Z.le_lt_trans with (Z.of_nat (List.length df)); [lia | exact Hsize]. }
    apply mul_finite_nonneg, div_finite_nonneg;
      destruct (of_nat_cases (List.length (outliers df)) Ho)
        as [[_ ->] | (ma & ea & ->)]; reflexivity. }
  split; [exact N |]. split.
  - apply nonneg_isna, N.
  - intro Z1. rewrite Z1. reflexivity.
Qed.

End PercentMore.

(** ** The further properties on the sample frame *)

Lemma cleaner_fixed_point_witness :
  clean (pd := Reference.pandas) Reference.missing_time
  = Ok Reference.missing_time_clean
  /\ range_filters Reference.missing_time_clean = Reference.missing_time_clean
  /\ dropna Reference.missing_time_clean
     = keyed pickup_datetime Reference.missing_time_clean.
Proof.
  split; [reflexivity |].
  destruct (cleaner_fixed_point (pd := Reference.pandas)
              Reference.missing_time Reference.missing_time_clean eq_refl)
    as (A & B & _).
  split; assumption.
Defined.

Lemma range_filter_order_witness :
  Permutation
    [ (fun r : RawRow => fare_gt r 0); (fun r => fare_lt r 200);
      (fun r => pc_gt r 0); (fun r => pc_le r 6) ]
    [ (fun r : RawRow => pc_le r 6); (fun r => pc_gt r 0);
      (fun r => fare_lt r 200); (fun r => fare_gt r 0) ]
  /\ apply_filters
       [ (fun r : RawRow => pc_le r 6); (fun r => pc_gt r 0);
         (fun r => fare_lt r 200); (fun r => fare_gt r 0) ]
       Reference.sample
     = range_filters Reference.sample.
Proof.
  split.
  - apply (Permutation_rev
             [ (fun r : RawRow => fare_gt r 0); (fun r => fare_lt r 200);
               (fun r => pc_gt r 0); (fun r => pc_le r 6) ]).
  - apply (proj1 (range_filter_order _ Reference.sample
                    (Permutation_rev
                       [ (fun r : RawRow => fare_gt r 0); (fun r => fare_lt r 200);
                         (fun r => pc_gt r 0); (fun r => pc_le r 6) ]))).
Defined.

Lemma removed_records_accounts_witness :
  removed_records (pd := Reference.pandas) Reference.sample = Ok 1%nat
  /\ exists df,
      clean (pd := Reference.pandas) Reference.sample = Ok df
      /\ (1 + List.length df = List.length (dropna Reference.sample))%nat.
Proof.
  split; [reflexivity |].
  destruct (removed_records_accounts (pd := Reference.pandas) Reference.sample 1
              eq_refl) as (df & C & A & _).
  exists df. split; assumption.
Defined.

Lemma passenger_stats_labels_witness :
  clean (pd := Reference.pandas) Reference.sample = Ok Reference.sample_clean
  /\ (List.length (passenger_stats (pd := Reference.pandas) Reference.sample_clean)
      <= 6)%nat.
Proof.
  split; [reflexivity |].
  apply (proj1 (proj2 (proj2 (passenger_stats_labels (pd := Reference.pandas)
                                Reference.sample Reference.sample_clean eq_refl)))).
Defined.

Lemma most_common_tallest_bar_witness :
  clean (pd := Reference.pandas) Reference.sample = Ok Reference.sample_clean
  /\ most_common_passengers Reference.sample_clean = Ok 1
  /\ exists avg,
      lookup Z.eq_dec 1 (passenger_stats (pd := Reference.pandas)
                           Reference.sample_clean)
      = Some (avg, frequency 1 Reference.sample_clean).
Proof.
  split; [reflexivity |]. split; [reflexivity |].
  apply (proj1 (most_common_tallest_bar (pd := Reference.pandas) Reference.sample
                  Reference.sample_clean 1 eq_refl eq_refl)).
Defined.

Lemma extremes_earliest_witness :
  exists rep,
    run (pd := Reference.pandas) Reference.sample = (Ok rep, complete_log)
    /\ busiest_day rep = Some "Monday"
    /\ exists df pre post,
        clean (pd := Reference.pandas) Reference.sample = Ok df
        /\ weekday_order = (pre ++ "Monday" :: post)%list.
Proof.
  eexists. split; [vm_compute; reflexivity |]. split; [reflexivity |].
  match goal with
  | |- exists df pre post, clean ?raw = _ /\ _ =>
      destruct (extremes_earliest (pd := Reference.pandas) raw _
                  complete_log ltac:(vm_compute; reflexivity))
        as (df & C & B & _)
  end.
  destruct (B "Monday" eq_refl) as (pre & post & W & _).
  exists df, pre, post. split; assumption.
Defined.

Lemma report_counts_witness :
  exists rep,
    run (pd := Reference.pandas) Reference.sample = (Ok rep, complete_log)
    /\ exists df,
        clean (pd := Reference.pandas) Reference.sample = Ok df
        /\ total_records rep = List.length df.
Proof.
  eexists. split; [vm_compute; reflexivity |].
  match goal with
  | |- exists df, _ /\ total_records ?rep = _ =>
      destruct (report_counts (pd := Reference.pandas) Reference.sample rep
                  complete_log ltac:(vm_compute; reflexivity))
        as (df & C & T & _)
  end.
  exists df. split; assumption.
Defined.


Lemma sample_clean_rows : Reference.sample_clean <> [].
Proof. vm_compute. discriminate. Defined.

Lemma fare_range_witness :
  clean (pd := Reference.pandas) Reference.sample = Ok Reference.sample_clean
  /\ Reference.sample_clean <> []
  /\ ltb (of_Z 0) (fare_min Reference.sample_clean) = true
  /\ ltb (fare_max Reference.sample_clean) (of_Z 200) = true.
Proof.
  split; [reflexivity |]. split; [exact sample_clean_rows |].
  apply (proj2 (proj2 (proj2 (fare_range (pd := Reference.pandas) Reference.sample
                                Reference.sample_clean eq_refl sample_clean_rows)))).
Defined.

Lemma max_passengers_range_witness :
  clean (pd := Reference.pandas) Reference.sample = Ok Reference.sample_clean
  /\ Reference.sample_clean <> []
  /\ exists M, max_passengers Reference.sample_clean = Some M /\ 1 <= M <= 6.
Proof.
  split; [reflexivity |]. split; [exact sample_clean_rows |].
  destruct (max_passengers_range (pd := Reference.pandas) Reference.sample
              Reference.sample_clean eq_refl sample_clean_rows)
    as (M & E & B & _).
  exists M. split; assumption.
Defined.

Lemma outlier_percent_defined_witness :
  exists rep,
    run (pd := Reference.pandas) Reference.sample = (Ok rep, complete_log)
    /\ Z.of_nat (total_records rep) < 2 ^ 53
    /\ isna (outlier_percent rep) = false.
Proof.
  eexists. split; [vm_compute; reflexivity |]. split; [reflexivity |].
  match goal with
  | |- isna (outlier_percent ?rep) = false =>
      apply (proj1 (proj2 (outlier_percent_defined (pd := Reference.pandas)
                             Reference.sample rep complete_log
                             ltac:(vm_compute; reflexivity) eq_refl)))
  end.
Defined.
